(** * react-native-msal: the [PublicClientApplication] facade over the
      native module [RNMSAL]

    Embedding of [src/nativeModule.ts] and
    [src/publicClientApplication.native.ts].

    - An [async] method is a program that may [await] calls of the native
      module; the calls are the nodes of the program, so "the native module
      is not called" is a statement about the program itself.
    - The class instances live in a heap and methods receive the reference
      [this]; [init] returns that reference.
    - A promise settles as [Resolved] or [Rejected]; a [throw] inside an
      [async] method rejects the promise the method returns.
    - The native module is any implementation of [RNMSALNativeModule] over
      a state of its own, whose promises all settle.
    - Calls are made one after the other, each awaited before the next:
      a method threads the heap through its body, and nothing runs between
      an [await] and its continuation. *)

From Stdlib Require Import String DecimalString Bool Arith Lia.
From stdpp Require Import base list strings.

Local Open Scope string_scope.

(** ** JavaScript values that can be thrown *)

(** An instance of [Error] or of one of its subclasses: [error_class] names
    the constructor it was built with, [message] is its [message]. *)
Record JsError := mkJsError { error_class : string; message : string }.

(** [new Error(msg)] *)
Definition new_Error (msg : string) : JsError :=
  {| error_class := "Error"; message := msg |}.

(** What the runtime throws when a property of [undefined] is read. *)
Definition new_TypeError (msg : string) : JsError :=
  {| error_class := "TypeError"; message := msg |}.

(** React Native's [Platform.OS]. *)
Inductive PlatformOSType := ios | android | macos | windows | web.

(** The object given to [Platform.select] in [signOut]: the keys [ios] and
    [default]. *)
Record PlatformSelectSpec (A : Type) := { sel_ios : A; sel_default : A }.
Arguments sel_ios {A} _.
Arguments sel_default {A} _.

(** React Native's [Platform.select] on such an object: the entry of the
    running platform when the object has one, else [default]. *)
Definition Platform_select {A} (OS : PlatformOSType) (spec : PlatformSelectSpec A) : A :=
  match OS with
  | ios => sel_ios spec
  | _ => sel_default spec
  end.

(** [./types] is not among the sources: its types are parameters, and of
    [MSALSignoutParams] the code uses the field [account] only. *)
Class Types := {
  MSALConfiguration : Type;
  MSALInteractiveParams : Type;
  MSALSilentParams : Type;
  MSALResult : Type;
  MSALAccount : Type;
  MSALSignoutParams : Type;
  account : MSALSignoutParams -> MSALAccount
}.

(** The values that can be thrown and are not [Error] instances, and
    JavaScript's [String(v)] on them. *)
Class Js := {
  JsValue : Type;
  js_String : JsValue -> string
}.

(** React Native's [Platform]: the platform the application runs on. *)
Class Platform := { OS : PlatformOSType }.

(** A reference to an instance of the class. *)
Abbreviation ref := nat (only parsing).

Section Facade.

Context {T : Types} {J : Js} {P : Platform}.

Inductive JsThrown :=
| ThrownError (e : JsError)
| ThrownValue (v : JsValue).

(** [error instanceof Error ? error.message : String(error)] *)
Definition error_text (error : JsThrown) : string :=
  match error with
  | ThrownError e => message e
  | ThrownValue v => js_String v
  end.

(** A settled promise. *)
Inductive Settled (A : Type) :=
| Resolved (a : A)
| Rejected (error : JsThrown).
#[global] Arguments Resolved {A} _.
#[global] Arguments Rejected {A} _.

(** ** nativeModule.ts *)

(** The methods of [RNMSALNativeModule], as calls. *)
Inductive NativeCall :=
| CreatePublicClientApplication (c : MSALConfiguration)
| AcquireToken (params : MSALInteractiveParams)
| AcquireTokenSilent (params : MSALSilentParams)
| GetAccounts
| GetAccount (accountIdentifier : string)
| RemoveAccount (a : MSALAccount)
| Signout (params : MSALSignoutParams).

(** What the promise of each call resolves to. *)
Definition Resp (c : NativeCall) : Type :=
  match c with
  | CreatePublicClientApplication _ => unit
  | AcquireToken _ => option MSALResult
  | AcquireTokenSilent _ => option MSALResult
  | GetAccounts => list MSALAccount
  | GetAccount _ => option MSALAccount
  | RemoveAccount _ => bool
  | Signout _ => bool
  end.

(** [type RNMSALNativeModule], over the state [W] of the native side. *)
Record RNMSALNativeModule (W : Type) := {
  createPublicClientApplication : MSALConfiguration -> W -> W * Settled unit;
  native_acquireToken : MSALInteractiveParams -> W -> W * Settled (option MSALResult);
  native_acquireTokenSilent : MSALSilentParams -> W -> W * Settled (option MSALResult);
  native_getAccounts : W -> W * Settled (list MSALAccount);
  native_getAccount : string -> W -> W * Settled (option MSALAccount);
  native_removeAccount : MSALAccount -> W -> W * Settled bool;
  signout : MSALSignoutParams -> W -> W * Settled bool
}.
#[global] Arguments createPublicClientApplication {W} _ _ _.
#[global] Arguments native_acquireToken {W} _ _ _.
#[global] Arguments native_acquireTokenSilent {W} _ _ _.
#[global] Arguments native_getAccounts {W} _ _.
#[global] Arguments native_getAccount {W} _ _ _.
#[global] Arguments native_removeAccount {W} _ _ _.
#[global] Arguments signout {W} _ _ _.

(** The native module answering a call. *)
Definition handle {W} (RNMSAL : RNMSALNativeModule W) (c : NativeCall)
  : W -> W * Settled (Resp c) :=
  match c with
  | CreatePublicClientApplication cfg => createPublicClientApplication RNMSAL cfg
  | AcquireToken p => native_acquireToken RNMSAL p
  | AcquireTokenSilent p => native_acquireTokenSilent RNMSAL p
  | GetAccounts => native_getAccounts RNMSAL
  | GetAccount i => native_getAccount RNMSAL i
  | RemoveAccount a => native_removeAccount RNMSAL a
  | Signout p => signout RNMSAL p
  end.

Definition native_module_missing : string :=
  "Native module RNMSAL is not available. " +:+
  "Please ensure you have linked the native module correctly. " +:+
  "Run: npx react-native link react-native-msal (or use Expo config plugin for Expo projects)".

(** Evaluation of a module: its export, or what it threw. *)
Inductive ModuleEval (A : Type) :=
| Exports (a : A)
| Threw (error : JsThrown).
#[global] Arguments Exports {A} _.
#[global] Arguments Threw {A} _.

(** Evaluation of [nativeModule.ts]; [NativeModules_RNMSAL] is
    [NativeModules.RNMSAL], [None] when no native module has that name. *)
Definition nativeModule {W} (NativeModules_RNMSAL : option (RNMSALNativeModule W))
  : ModuleEval (RNMSALNativeModule W) :=
  match NativeModules_RNMSAL with
  | None => Threw (ThrownError (new_Error native_module_missing))
  | Some RNMSAL => Exports RNMSAL
  end.

(** ** Async programs *)

Inductive Async (A : Type) : Type :=
| Done (a : A)
| Await (c : NativeCall) (k : Settled (Resp c) -> Async A).
#[global] Arguments Done {A} _.
#[global] Arguments Await {A} _ _.

Fixpoint Async_bind {A B} (p : Async A) (f : A -> Async B) : Async B :=
  match p with
  | Done a => f a
  | Await c k => Await c (fun r => Async_bind (k r) f)
  end.

(** Running a program against the native module: the state the native side
    ends in, the calls it received, in order, and the result. *)
Fixpoint run {W A} (RNMSAL : RNMSALNativeModule W) (p : Async A) (w : W)
  : W * list NativeCall * A :=
  match p with
  | Done a => (w, [], a)
  | Await c k =>
      let '(w1, r) := handle RNMSAL c w in
      let '(w2, calls, a) := run RNMSAL (k r) w1 in
      (w2, c :: calls, a)
  end.

(** ** publicClientApplication.native.ts *)

Record PublicClientApplication := {
  isInitialized : bool;
  config : MSALConfiguration
}.

(** The heap of the instances; a reference is a position in it. *)
Abbreviation Heap := (list PublicClientApplication).

(** [new PublicClientApplication(config)] *)
Definition new_PublicClientApplication (cfg : MSALConfiguration) (h : Heap)
  : ref * Heap :=
  (List.length h, (h ++ [{| isInitialized := false; config := cfg |}])%list).

(** The body of an async method: it reads and writes the heap, awaits
    calls, and ends by returning or throwing. *)
Definition M (A : Type) : Type := Heap -> Async (Heap * Settled A).

Definition ret {A} (a : A) : M A := fun h => Done (h, Resolved a).

Definition throw {A} (error : JsThrown) : M A := fun h => Done (h, Rejected error).

Definition bind {A B} (m : M A) (f : A -> M B) : M B :=
  fun h =>
    Async_bind (m h) (fun hr =>
      match snd hr with
      | Resolved a => f a (fst hr)
      | Rejected error => Done (fst hr, Rejected error)
      end).

(** [try { m } catch (error) { handler }] *)
Definition try_catch {A} (m : M A) (handler : JsThrown -> M A) : M A :=
  fun h =>
    Async_bind (m h) (fun hr =>
      match snd hr with
      | Resolved a => Done (fst hr, Resolved a)
      | Rejected error => handler error (fst hr)
      end).

(** [await RNMSAL.method(args)]: a rejected promise is thrown. *)
Definition await (c : NativeCall) : M (Resp c) :=
  fun h => Await c (fun r => Done (h, r)).

(** Reading [this]; a reference to no object is an [undefined] receiver. *)
Definition read (this : ref) : M PublicClientApplication :=
  fun h =>
    match h !! this with
    | Some o => Done (h, Resolved o)
    | None =>
        Done (h, Rejected (ThrownError
                (new_TypeError "Cannot read properties of undefined")))
    end.

(** [this.isInitialized = b] *)
Definition set_isInitialized (this : ref) (b : bool) : M unit :=
  fun h =>
    match h !! this with
    | Some o =>
        Done (<[this := {| isInitialized := b; config := config o |}]> h,
              Resolved tt)
    | None =>
        Done (h, Rejected (ThrownError
                (new_TypeError "Cannot set properties of undefined")))
    end.

Notation "'let*' x ':=' m 'in' k" := (bind m (fun x => k))
  (at level 10, x name, m at level 200, k at level 200).

Definition not_initialized : string :=
  "PublicClientApplication is not initialized. You must call the `init` method before any other method.".

Definition not_initialized_error : JsThrown :=
  ThrownError (new_Error not_initialized).

Definition validateIsInitialized (this : ref) : M unit :=
  let* o := read this in
  if negb (isInitialized o)
  then throw not_initialized_error
  else ret tt.

Definition init_failed (error : JsThrown) : string :=
  ("Failed to initialize PublicClientApplication: " +:+ error_text error +:+ ". ") +:+
  "Ensure the native MSAL module is properly linked and configured.".

Definition init (this : ref) : M ref :=
  let* o := read this in
  let* _ :=
    if negb (isInitialized o)
    then
      try_catch
        (let* _ := await (CreatePublicClientApplication (config o)) in
         set_isInitialized this true)
        (fun error => throw (ThrownError (new_Error (init_failed error))))
    else ret tt in
  ret this.

Definition acquireToken (this : ref) (params : MSALInteractiveParams)
  : M (option MSALResult) :=
  let* _ := validateIsInitialized this in
  await (AcquireToken params).

Definition acquireTokenSilent (this : ref) (params : MSALSilentParams)
  : M (option MSALResult) :=
  let* _ := validateIsInitialized this in
  await (AcquireTokenSilent params).

Definition getAccounts (this : ref) : M (list MSALAccount) :=
  let* _ := validateIsInitialized this in
  await GetAccounts.

Definition getAccount (this : ref) (accountIdentifier : string)
  : M (option MSALAccount) :=
  let* _ := validateIsInitialized this in
  await (GetAccount accountIdentifier).

Definition removeAccount (this : ref) (a : MSALAccount) : M bool :=
  let* _ := validateIsInitialized this in
  await (RemoveAccount a).

Definition signOut (this : ref) (params : MSALSignoutParams) : M bool :=
  let* _ := validateIsInitialized this in
  Platform_select OS
    {| sel_ios := fun _ : unit => await (Signout params);
       sel_default := fun _ : unit => await (RemoveAccount (account params)) |}
    tt.

(** ** Calls from outside *)

(** One call of a method of the class. *)
Inductive Op :=
| OInit
| OAcquireToken (params : MSALInteractiveParams)
| OAcquireTokenSilent (params : MSALSilentParams)
| OGetAccounts
| OGetAccount (accountIdentifier : string)
| ORemoveAccount (a : MSALAccount)
| OSignOut (params : MSALSignoutParams).

Definition is_init (op : Op) : bool :=
  match op with OInit => true | _ => false end.

(** What the promise of a method resolves to. *)
Inductive Value :=
| VInstance (r : ref)
| VResult (res : option MSALResult)
| VAccounts (l : list MSALAccount)
| VAccount (a : option MSALAccount)
| VBool (b : bool).

Definition M_map {A B} (f : A -> B) (m : M A) : M B :=
  let* a := m in ret (f a).

Definition call (this : ref) (op : Op) : M Value :=
  match op with
  | OInit => M_map VInstance (init this)
  | OAcquireToken params => M_map VResult (acquireToken this params)
  | OAcquireTokenSilent params => M_map VResult (acquireTokenSilent this params)
  | OGetAccounts => M_map VAccounts (getAccounts this)
  | OGetAccount i => M_map VAccount (getAccount this i)
  | ORemoveAccount a => M_map VBool (removeAccount this a)
  | OSignOut params => M_map VBool (signOut this params)
  end.

(** A method called and awaited: the heap and the native state it leaves,
    the native calls it made and how its promise settled. *)
Record Step (W : Type) := {
  st_heap : Heap;
  st_world : W;
  st_calls : list NativeCall;
  st_result : Settled Value
}.
#[global] Arguments st_heap {W} _.
#[global] Arguments st_world {W} _.
#[global] Arguments st_calls {W} _.
#[global] Arguments st_result {W} _.

Definition exec {W A} (RNMSAL : RNMSALNativeModule W) (m : M A) (h : Heap) (w : W)
  : Heap * W * list NativeCall * Settled A :=
  let '(w', calls, (h', r)) := run RNMSAL (m h) w in (h', w', calls, r).

Definition exec_call {W} (RNMSAL : RNMSALNativeModule W)
    (this : ref) (op : Op) (h : Heap) (w : W) : Step W :=
  let '(h', w', calls, r) := exec RNMSAL (call this op) h w in
  {| st_heap := h'; st_world := w'; st_calls := calls; st_result := r |}.

(** A sequence of calls, each awaited before the next, on any instances
    of the heap: the steps, in order. *)
Fixpoint exec_script {W} (RNMSAL : RNMSALNativeModule W)
    (script : list (ref * Op)) (h : Heap) (w : W) : list (ref * Op * Step W) :=
  match script with
  | [] => []
  | (this, op) :: rest =>
      let s := exec_call RNMSAL this op h w in
      (this, op, s) :: exec_script RNMSAL rest (st_heap s) (st_world s)
  end.

(** The heap and the native state after the steps. *)
Fixpoint final {W} (h : Heap) (w : W) (steps : list (ref * Op * Step W)) : Heap * W :=
  match steps with
  | [] => (h, w)
  | (_, _, s) :: rest => final (st_heap s) (st_world s) rest
  end.

(** The flag of an instance in a heap. *)
Definition flag (h : Heap) (this : ref) : bool :=
  match h !! this with
  | Some o => isInitialized o
  | None => false
  end.

(** The instance once [init] has set its flag. *)
Definition initialized (o : PublicClientApplication) : PublicClientApplication :=
  {| isInitialized := true; config := config o |}.

Definition is_resolved {A} (r : Settled A) : bool :=
  match r with Resolved _ => true | Rejected _ => false end.

(** A call of [init] on [this] whose promise resolved. *)
Definition init_succeeded {W} (this : ref) (e : ref * Op * Step W) : bool :=
  let '(r, op, s) := e in
  Nat.eqb r this && is_init op && is_resolved (st_result s).

(** [(h, w)] is a state in which [init] has succeeded on [this]: a call of
    [init] on it resolved in [(h0, w0)], and the calls of [mid] followed. *)
Definition after_init {W} (RNMSAL : RNMSALNativeModule W) (this : ref)
    (h0 : Heap) (w0 : W) (mid : list (ref * Op)) (h : Heap) (w : W) : Prop :=
  let s := exec_call RNMSAL this OInit h0 w0 in
  is_resolved (st_result s) = true
  /\ final (st_heap s) (st_world s)
       (exec_script RNMSAL mid (st_heap s) (st_world s)) = (h, w).

(** How often the flag of [this] goes from false to true along the steps
    that follow the heap [h]. *)
Fixpoint rises {W} (this : ref) (h : Heap) (steps : list (ref * Op * Step W)) : nat :=
  match steps with
  | [] => 0
  | (_, _, s) :: rest =>
      (if negb (flag h this) && flag (st_heap s) this then 1 else 0)
      + rises this (st_heap s) rest
  end.

(** [pat] occurs in [s]. *)
Definition occurs (pat s : string) : bool :=
  match String.index 0 pat s with
  | Some _ => true
  | None => false
  end.

Definition is_create (c : NativeCall) : bool :=
  match c with CreatePublicClientApplication _ => true | _ => false end.

(** Evaluation of [publicClientApplication.native.ts]: it imports
    [./nativeModule] first and then exports the class, here the way its
    methods are called. *)
Definition publicClientApplication_native {W}
    (NativeModules_RNMSAL : option (RNMSALNativeModule W))
  : ModuleEval (ref -> Op -> Heap -> W -> Step W) :=
  match nativeModule NativeModules_RNMSAL with
  | Threw error => Threw error
  | Exports RNMSAL => Exports (exec_call RNMSAL)
  end.

End Facade.

Abbreviation Heap := (list PublicClientApplication).

Notation "'let*' x ':=' m 'in' k" := (bind m (fun x => k))
  (at level 10, x name, m at level 200, k at level 200).

(** ** Async functions over a larger state

    The service and the context of the example application are async
    functions too; besides the heap of the instances they write to the
    console and to the state of a component. *)

Section State.

Context {T : Types} {J : Js}.

Definition St (S A : Type) : Type := S -> Async (S * Settled A).

Definition st_ret {S A} (a : A) : St S A := fun s => Done (s, Resolved a).

Definition st_bind {S A B} (m : St S A) (f : A -> St S B) : St S B :=
  fun s =>
    Async_bind (m s) (fun sr =>
      match snd sr with
      | Resolved a => f a (fst sr)
      | Rejected error => Done (fst sr, Rejected error)
      end).

(** [try { m } catch (error) { handler }] *)
Definition st_try {S A} (m : St S A) (handler : JsThrown -> St S A) : St S A :=
  fun s =>
    Async_bind (m s) (fun sr =>
      match snd sr with
      | Resolved a => Done (fst sr, Resolved a)
      | Rejected error => handler error (fst sr)
      end).

(** [try { m } finally { fin }]: [fin] runs however [m] ends, and the
    whole ends as [m] did unless [fin] throws. *)
Definition st_finally {S A} (m : St S A) (fin : St S unit) : St S A :=
  fun s =>
    Async_bind (m s) (fun sr =>
      Async_bind (fin (fst sr)) (fun su =>
        match snd su with
        | Resolved _ => Done (fst su, snd sr)
        | Rejected error => Done (fst su, Rejected error)
        end)).

Definition st_modify {S} (f : S -> S) : St S unit :=
  fun s => Done (f s, Resolved tt).

(** A function over a part of the state, run on the whole. *)
Definition zoom {S S' A} (get : S' -> S) (put : S -> S' -> S') (m : St S A)
  : St S' A :=
  fun s' => Async_bind (m (get s')) (fun sr => Done (put (fst sr) s', snd sr)).

Definition exec_st {W S A} (RNMSAL : RNMSALNativeModule W) (m : St S A) (s : S) (w : W)
  : S * W * list NativeCall * Settled A :=
  let '(w', calls, (s', r)) := run RNMSAL (m s) w in (s', w', calls, r).

(** The console: which method was called, with which arguments. *)
Variant ConsoleMethod := Console_log | Console_error | Console_warn.

Inductive ConsoleArg :=
| Text (s : string)
| Caught (error : JsThrown).

Record ConsoleLine := { method : ConsoleMethod; args : list ConsoleArg }.

(** What the application runs on: the heap of the instances and the lines
    written to the console, oldest first. *)
Record Runtime := { rt_heap : Heap; rt_console : list ConsoleLine }.

Definition console (m : ConsoleMethod) (a : list ConsoleArg) : St Runtime unit :=
  st_modify (fun s =>
    {| rt_heap := rt_heap s;
       rt_console := (rt_console s ++ [{| method := m; args := a |}])%list |}).

(** A method of the class, called from the application. *)
Definition on_heap {A} (m : M A) : St Runtime A :=
  zoom rt_heap (fun h s => {| rt_heap := h; rt_console := rt_console s |}) m.

Definition line (m : ConsoleMethod) (a : list ConsoleArg) : ConsoleLine :=
  {| method := m; args := a |}.

(** The runtime with the heap [h] and [lines] more on the console. *)
Definition logged (rt : Runtime) (h : Heap) (lines : list ConsoleLine) : Runtime :=
  {| rt_heap := h; rt_console := (rt_console rt ++ lines)%list |}.

(** What a function of the service leaves when the guard of the class
    stops it: the rejection on [console.error] after [text], nothing else
    changed, no native call, and the value [v]. *)
Definition swallowed {W A} (rt : Runtime) (w : W) (text : string) (v : A)
  : Runtime * W * list NativeCall * Settled A :=
  (logged rt (rt_heap rt)
     [line Console_error [Text text; Caught not_initialized_error]],
   w, [], Resolved v).

(** A number in a template literal. *)
Definition number (n : nat) : string := NilZero.string_of_uint (Nat.to_uint n).

End State.

Notation "'let+' x ':=' m 'in' k" := (st_bind m (fun x => k))
  (at level 10, x name, m at level 200, k at level 200).

(** The object literals the application builds and the fields it reads, of
    the types of [./types]. *)
Class AppTypes {T : Types} := {
  (** [{ auth: { clientId, authority } }] *)
  msal_configuration : string -> string -> MSALConfiguration;
  (** [{ scopes }] *)
  interactive_params : list string -> MSALInteractiveParams;
  (** [{ account, scopes, forceRefresh }] *)
  silent_params : MSALAccount -> list string -> bool -> MSALSilentParams;
  (** [{ account, signoutFromBrowser }] *)
  signout_params : MSALAccount -> bool -> MSALSignoutParams;
  signout_params_account : forall a b, account (signout_params a b) = a;
  result_account : MSALResult -> MSALAccount;
  result_accessToken : MSALResult -> string;
  username : MSALAccount -> string
}.

(** ** The service ([src/services/msalService.ts] of the application) *)

Module msalService.

Section Service.

Context {T : Types} {J : Js} {P : Platform} {AT : AppTypes}.

Definition CLIENT_ID : string := "YOUR_CLIENT_ID_HERE".

Definition msalConfig : MSALConfiguration :=
  msal_configuration CLIENT_ID "https://login.microsoftonline.com/common".

(** Evaluation of the module: [pca = new PublicClientApplication(msalConfig)]. *)
Definition load (h : Heap) : ref * Heap := new_PublicClientApplication msalConfig h.

(** The instance of the module. *)
Context (pca : ref).

Definition initializeMSAL : St Runtime bool :=
  st_try
    (let+ _ := on_heap (init pca) in
     let+ _ := console Console_log [Text "✅ MSAL initialized successfully"] in
     st_ret true)
    (fun error =>
       let+ _ := console Console_error
                   [Text "❌ MSAL initialization failed:"; Caught error] in
       st_ret false).

(** A parameter with the default value [['user.read']]. *)
Definition scopes_or_default (scopes : option (list string)) : list string :=
  match scopes with
  | Some l => l
  | None => ["user.read"]
  end.

Definition login (scopes : option (list string)) : St Runtime (option MSALResult) :=
  let scopes := scopes_or_default scopes in
  st_try
    (let params := interactive_params scopes in
     let+ result := on_heap (acquireToken pca params) in
     let+ _ :=
       match result with
       | Some r =>
           let+ _ := console Console_log [Text "✅ Login successful"] in
           console Console_log [Text "User:"; Text (username (result_account r))]
       | None => st_ret tt
       end in
     st_ret result)
    (fun error =>
       let+ _ := console Console_error [Text "❌ Login failed:"; Caught error] in
       st_ret None).

Definition loginSilent (a : MSALAccount) (scopes : option (list string))
  : St Runtime (option MSALResult) :=
  let scopes := scopes_or_default scopes in
  st_try
    (let+ result :=
       on_heap (acquireTokenSilent pca (silent_params a scopes false)) in
     let+ _ :=
       match result with
       | Some _ => console Console_log [Text "✅ Silent login successful"]
       | None => st_ret tt
       end in
     st_ret result)
    (fun error =>
       let+ _ := console Console_error
                   [Text "❌ Silent login failed (user may need to login interactively):";
                    Caught error] in
       st_ret None).

Definition getAccounts : St Runtime (list MSALAccount) :=
  st_try
    (let+ accounts := on_heap (getAccounts pca) in
     let+ _ := console Console_log
                 [Text ("✅ Found " +:+ number (List.length accounts) +:+ " account(s)")] in
     st_ret accounts)
    (fun error =>
       let+ _ := console Console_error [Text "❌ Get accounts failed:"; Caught error] in
       st_ret []).

Definition getAccount (accountIdentifier : string) : St Runtime (option MSALAccount) :=
  st_try
    (let+ a := on_heap (getAccount pca accountIdentifier) in
     let+ _ := console Console_log [Text "✅ Account retrieved"] in
     st_ret a)
    (fun error =>
       let+ _ := console Console_error [Text "❌ Get account failed:"; Caught error] in
       st_ret None).

Definition logout (a : MSALAccount) : St Runtime bool :=
  st_try
    (let+ _ := on_heap (signOut pca (signout_params a true)) in
     let+ _ := console Console_log [Text "✅ Logout successful"] in
     st_ret true)
    (fun error =>
       let+ _ := console Console_error [Text "❌ Logout failed:"; Caught error] in
       st_ret false).

Definition removeAccount (a : MSALAccount) : St Runtime bool :=
  st_try
    (let+ _ := on_heap (removeAccount pca a) in
     let+ _ := console Console_log [Text "✅ Account removed"] in
     st_ret true)
    (fun error =>
       let+ _ := console Console_error [Text "❌ Remove account failed:"; Caught error] in
       st_ret false).

End Service.

End msalService.

(** ** The context ([src/context/AuthContext.tsx] of the application)

    The values of the component's [useState] hooks are a record; a setter
    writes it. A handler is a closure of the render that made it: the
    [user] it reads is the one of that render, a parameter here. *)

Module AuthContext.

Section Provider.

Context {T : Types} {J : Js} {P : Platform} {AT : AppTypes}.

(** The instance of the service. *)
Context (pca : ref).

(** The values of the four hooks. *)
Record Hooks := {
  hook_isInitialized : bool;
  hook_isLoading : bool;
  hook_user : option MSALAccount;
  hook_accessToken : option string
}.

(** [useState(false)], [useState(true)], [useState(null)], [useState(null)] *)
Definition mount : Hooks :=
  {| hook_isInitialized := false; hook_isLoading := true;
     hook_user := None; hook_accessToken := None |}.

Record State := { runtime : Runtime; hooks : Hooks }.

Definition set_hooks (f : Hooks -> Hooks) : St State unit :=
  st_modify (fun s => {| runtime := runtime s; hooks := f (hooks s) |}).

Definition setIsInitialized (b : bool) : St State unit :=
  set_hooks (fun k =>
    {| hook_isInitialized := b; hook_isLoading := hook_isLoading k;
       hook_user := hook_user k; hook_accessToken := hook_accessToken k |}).

Definition setIsLoading (b : bool) : St State unit :=
  set_hooks (fun k =>
    {| hook_isInitialized := hook_isInitialized k; hook_isLoading := b;
       hook_user := hook_user k; hook_accessToken := hook_accessToken k |}).

Definition setUser (u : option MSALAccount) : St State unit :=
  set_hooks (fun k =>
    {| hook_isInitialized := hook_isInitialized k;
       hook_isLoading := hook_isLoading k;
       hook_user := u; hook_accessToken := hook_accessToken k |}).

Definition setAccessToken (t : option string) : St State unit :=
  set_hooks (fun k =>
    {| hook_isInitialized := hook_isInitialized k;
       hook_isLoading := hook_isLoading k;
       hook_user := hook_user k; hook_accessToken := t |}).

(** A function of the service, or a call of the console. *)
Definition on_runtime {A} (m : St Runtime A) : St State A :=
  zoom runtime (fun r s => {| runtime := r; hooks := hooks s |}) m.

(** The effect that runs once the component is mounted. *)
Definition initAuth : St State unit :=
  st_finally
    (st_try
       (let+ initialized := on_runtime (msalService.initializeMSAL pca) in
        let+ _ := setIsInitialized initialized in
        if initialized
        then
          let+ accounts := on_runtime (msalService.getAccounts pca) in
          match accounts with
          | first :: _ =>
              let+ _ := setUser (Some first) in
              on_runtime (console Console_log
                            [Text "Existing user found:"; Text (username first)])
          | [] => st_ret tt
          end
        else st_ret tt)
       (fun error =>
          on_runtime (console Console_error
                        [Text "Auth initialization error:"; Caught error])))
    (setIsLoading false).

Definition handleLogin (scopes : option (list string)) : St State (option MSALResult) :=
  let scopes := msalService.scopes_or_default scopes in
  let+ _ := setIsLoading true in
  st_finally
    (st_try
       (let+ result := on_runtime (msalService.login pca (Some scopes)) in
        match result with
        | Some r =>
            let+ _ := setUser (Some (result_account r)) in
            let+ _ := setAccessToken (Some (result_accessToken r)) in
            st_ret (Some r)
        | None => st_ret None
        end)
       (fun error =>
          let+ _ := on_runtime (console Console_error [Text "Login error:"; Caught error]) in
          st_ret None))
    (setIsLoading false).

Definition handleLogout (user : option MSALAccount) : St State bool :=
  let+ _ := setIsLoading true in
  st_finally
    (st_try
       (match user with
        | Some u =>
            let+ success := on_runtime (msalService.logout pca u) in
            if success
            then
              let+ _ := setUser None in
              let+ _ := setAccessToken None in
              st_ret true
            else st_ret false
        | None => st_ret false
        end)
       (fun error =>
          let+ _ := on_runtime (console Console_error [Text "Logout error:"; Caught error]) in
          st_ret false))
    (setIsLoading false).

Definition handleRefreshToken (user : option MSALAccount)
    (scopes : option (list string)) : St State bool :=
  let scopes := msalService.scopes_or_default scopes in
  match user with
  | None =>
      let+ _ := on_runtime (console Console_warn
                              [Text "Cannot refresh token - no user logged in"]) in
      st_ret false
  | Some u =>
      st_try
        (let+ result := on_runtime (msalService.loginSilent pca u (Some scopes)) in
         match result with
         | Some r =>
             let+ _ := setAccessToken (Some (result_accessToken r)) in
             st_ret true
         | None => st_ret false
         end)
        (fun error =>
           let+ _ := on_runtime (console Console_error
                                   [Text "Token refresh failed:"; Caught error]) in
           let+ _ := setAccessToken None in
           st_ret false)
  end.

(** [AuthContextType]: what a render provides. *)
Record AuthContextType := {
  isInitialized : bool;
  isLoading : bool;
  user : option MSALAccount;
  accessToken : option string;
  login : option (list string) -> St State (option MSALResult);
  logout : St State bool;
  refreshToken : option (list string) -> St State bool
}.

(** The [value] of a render with the hooks at [k]. *)
Definition value (k : Hooks) : AuthContextType :=
  {| isInitialized := hook_isInitialized k;
     isLoading := hook_isLoading k;
     user := hook_user k;
     accessToken := hook_accessToken k;
     login := handleLogin;
     logout := handleLogout (hook_user k);
     refreshToken := handleRefreshToken (hook_user k) |}.

(** [useAuth]: the context, or the error outside a provider. *)
Definition useAuth (context : option AuthContextType) : JsError + AuthContextType :=
  match context with
  | None => inl (new_Error "useAuth must be used within AuthProvider")
  | Some c => inr c
  end.

End Provider.

End AuthContext.

(** ** A concrete application, to run the definitions on *)

Module Demo.

(** A configuration is a client id, interactive parameters are the scopes,
    silent parameters an account and the scopes, a result is an access
    token, an account its identifier, and sign-out parameters an account
    and [signoutFromBrowser]. *)
Definition types : Types := {|
  MSALConfiguration := string;
  MSALInteractiveParams := list string;
  MSALSilentParams := string * list string;
  MSALResult := string;
  MSALAccount := string;
  MSALSignoutParams := string * bool;
  account := fst
|}.

Definition js : Js := {|
  JsValue := string;
  js_String := fun v => v
|}.

Definition on_ios : Platform := {| OS := ios |}.
Definition on_android : Platform := {| OS := android |}.

(** The native side: how often setup was attempted, and the accounts
    signed in. *)
Definition World : Type := nat * list string.

Definition drop (a : string) (l : list string) : list string :=
  filter (fun x => negb (String.eqb x a)) l.

Definition known (a : string) (l : list string) : bool :=
  existsb (String.eqb a) l.

(** A native module whose first setup fails and whose later ones succeed;
    an interactive request with no scope stands for a flow the user
    aborts. *)
Definition setup (_ : string) (w : World) : World * @Settled js unit :=
  match fst w with
  | O => ((1, snd w), Rejected (ThrownError (mkJsError "Error" "no network")))
  | S n => ((S (S n), snd w), Resolved tt)
  end.

Definition interactive (scopes : list string) (w : World)
  : World * @Settled js (option string) :=
  match scopes with
  | [] => (w, Resolved None)
  | _ => ((fst w, "u1" :: drop "u1" (snd w)), Resolved (Some "tok1"))
  end.

Definition silent (p : string * list string) (w : World)
  : World * @Settled js (option string) :=
  if known (fst p) (snd w)
  then (w, Resolved (Some "tok2"))
  else (w, Rejected (ThrownValue (J := js) "no cached session")).

Definition RNMSAL : @RNMSALNativeModule types js World :=
  @Build_RNMSALNativeModule types js World
    setup interactive silent
    (fun w => (w, Resolved (snd w)))
    (fun i w => (w, Resolved (if known i (snd w) then Some i else None)))
    (fun a w => ((fst w, drop a (snd w)), Resolved (known a (snd w))))
    (fun p w => ((fst w, drop (fst p) (snd w)), Resolved true)).

(** A fresh instance on an empty heap. *)
Definition pca : ref * Heap :=
  @new_PublicClientApplication types "abc" [].

(** That instance, and the heap once it is initialized. *)
Definition fresh : @PublicClientApplication types :=
  @Build_PublicClientApplication types false "abc".

Definition ready_heap : list (@PublicClientApplication types) :=
  [@Build_PublicClientApplication types true "abc"].

(** A run from construction: a call rejected by the guard, an [init] that
    fails, one that succeeds, then calls of which one is rejected by the
    native module. *)
Definition script : list (nat * @Op types) :=
  [(0, @OGetAccounts types); (0, @OInit types); (0, @OInit types);
   (0, @OAcquireTokenSilent types ("u1", [])); (0, @OInit types);
   (0, @OSignOut types ("u1", true))].

End Demo.


(** The application on the concrete types: a result is an access token of
    the one account "u1". *)
Module DemoApp.

Definition app : @AppTypes Demo.types :=
  @Build_AppTypes Demo.types
    (fun clientId _ => clientId)
    (fun scopes => scopes)
    (fun a scopes _ => (a, scopes))
    (fun a b => (a, b))
    (fun _ _ => eq_refl)
    (fun _ => "u1")
    (fun token => token)
    (fun a => a +:+ "@example.com").

(** The heap once the module of the service is evaluated, and with its
    instance initialized. *)
Definition loaded : Runtime (T := Demo.types) (J := Demo.js) :=
  {| rt_heap := snd (msalService.load (AT := app) []); rt_console := [] |}.

Definition ready : Runtime (T := Demo.types) (J := Demo.js) :=
  {| rt_heap := [@Build_PublicClientApplication Demo.types true "YOUR_CLIENT_ID_HERE"];
     rt_console := [] |}.

(** A component just mounted, over [loaded]. *)
Definition mounted : AuthContext.State (T := Demo.types) (J := Demo.js) :=
  {| AuthContext.runtime := loaded; AuthContext.hooks := AuthContext.mount |}.

(** A component with "u1" logged in and a token, over [ready]. *)
Definition logged_in : AuthContext.State (T := Demo.types) (J := Demo.js) :=
  {| AuthContext.runtime := ready;
     AuthContext.hooks :=
       @AuthContext.Build_Hooks Demo.types true false (Some "u1") (Some "tok1") |}.

End DemoApp.

(** ** Properties *)

Section Properties.

Context {T : Types} {J : Js} {P : Platform}.
Context {W : Type} (RNMSAL : RNMSALNativeModule W).

Implicit Types (h : Heap) (w : W) (this : ref) (o : PublicClientApplication).

Lemma append_assoc (a b c : string) : (a +:+ b) +:+ c = a +:+ (b +:+ c).
Proof.
  induction a as [|x a IH]; [reflexivity|].
  change (String x ((a +:+ b) +:+ c) = String x (a +:+ (b +:+ c))).
  rewrite IH. reflexivity.
Qed.

(** *** The guard *)

Lemma validate_ready this h o :
  h !! this = Some o -> isInitialized o = true ->
  validateIsInitialized this h = Done (h, Resolved tt).
Proof.
  intros Hthis Hflag. unfold validateIsInitialized, bind, read.
  rewrite Hthis. cbn. rewrite Hflag. reflexivity.
Qed.

Lemma validate_uninitialized this h o :
  h !! this = Some o -> isInitialized o = false ->
  validateIsInitialized this h = Done (h, Rejected not_initialized_error).
Proof.
  intros Hthis Hflag. unfold validateIsInitialized, bind, read.
  rewrite Hthis. cbn. rewrite Hflag. reflexivity.
Qed.

Lemma validate_undefined this h :
  h !! this = None ->
  exists e, validateIsInitialized this h = Done (h, Rejected e).
Proof.
  intros Hthis. unfold validateIsInitialized, bind, read.
  rewrite Hthis. cbn. eauto.
Qed.

(** The guard never awaits and never writes. *)
Lemma validate_cases this h :
  exists r, validateIsInitialized this h = Done (h, r).
Proof.
  destruct (h !! this) as [o|] eqn:Hthis.
  - destruct (isInitialized o) eqn:Hflag.
    + rewrite (validate_ready _ _ _ Hthis Hflag). eauto.
    + rewrite (validate_uninitialized _ _ _ Hthis Hflag). eauto.
  - destruct (validate_undefined _ _ Hthis) as [e ->]. eauto.
Qed.

(** A method that is the guard followed by one awaited call. *)
Lemma guarded_ready this h o (c : NativeCall) :
  h !! this = Some o -> isInitialized o = true ->
  (let* _ := validateIsInitialized this in await c) h
  = Await c (fun r => Done (h, r)).
Proof.
  intros Hthis Hflag. unfold bind.
  rewrite (validate_ready _ _ _ Hthis Hflag). reflexivity.
Qed.

Lemma guarded_uninitialized this h o (c : NativeCall) :
  h !! this = Some o -> isInitialized o = false ->
  (let* _ := validateIsInitialized this in await c) h
  = Done (h, Rejected not_initialized_error).
Proof.
  intros Hthis Hflag. unfold bind.
  rewrite (validate_uninitialized _ _ _ Hthis Hflag). reflexivity.
Qed.

Lemma signOut_guarded this params :
  signOut this params =
  match OS with
  | ios => let* _ := validateIsInitialized this in await (Signout params)
  | _ => let* _ := validateIsInitialized this in await (RemoveAccount (account params))
  end.
Proof. unfold signOut. destruct OS; reflexivity. Qed.

(** *** Calls other than [init] *)

Ltac unfold_methods :=
  unfold exec_call, exec, call, M_map, acquireToken, acquireTokenSilent,
    getAccounts, getAccount, removeAccount, signOut, Platform_select;
  cbn [sel_ios sel_default].

Lemma call_uninitialized this h o op :
  h !! this = Some o -> isInitialized o = false -> is_init op = false ->
  call this op h = Done (h, Rejected not_initialized_error).
Proof.
  intros Hthis Hflag Hop.
  destruct op; try discriminate; unfold_methods; try destruct OS;
    unfold bind; rewrite (validate_uninitialized _ _ _ Hthis Hflag);
    reflexivity.
Qed.

Lemma exec_call_done this op h w r :
  call this op h = Done (h, r) ->
  exec_call RNMSAL this op h w
  = {| st_heap := h; st_world := w; st_calls := []; st_result := r |}.
Proof. intros Hcall. unfold exec_call, exec. rewrite Hcall. reflexivity. Qed.

(** Only [init] writes the heap. *)
Lemma exec_call_heap this op h w :
  is_init op = false -> st_heap (exec_call RNMSAL this op h w) = h.
Proof.
  intros Hop. destruct (validate_cases this h) as [r Hv].
  destruct op; try discriminate; unfold_methods; try destruct OS;
    unfold bind; rewrite Hv; destruct r as [[]|e]; cbn -[handle];
    try reflexivity;
    destruct (handle RNMSAL _ w) as [? [?|?]]; reflexivity.
Qed.

(** *** [init] *)

Lemma exec_init_ready this h w o :
  h !! this = Some o -> isInitialized o = true ->
  exec RNMSAL (init this) h w = (h, w, [], Resolved this).
Proof.
  intros Hthis Hflag. unfold exec, init, bind, read.
  rewrite Hthis. cbn. rewrite Hflag. reflexivity.
Qed.

Lemma exec_init_resolved this h w o w' :
  h !! this = Some o -> isInitialized o = false ->
  createPublicClientApplication RNMSAL (config o) w = (w', Resolved tt) ->
  exec RNMSAL (init this) h w
  = (<[this := initialized o]> h, w',
     [CreatePublicClientApplication (config o)], Resolved this).
Proof.
  intros Hthis Hflag Hsetup.
  unfold exec, init, bind, read, try_catch, await, set_isInitialized.
  rewrite Hthis. cbn. rewrite Hflag. cbn. rewrite Hsetup. cbn.
  rewrite Hthis. reflexivity.
Qed.

Lemma exec_init_rejected this h w o w' error :
  h !! this = Some o -> isInitialized o = false ->
  createPublicClientApplication RNMSAL (config o) w = (w', Rejected error) ->
  exec RNMSAL (init this) h w
  = (h, w', [CreatePublicClientApplication (config o)],
     Rejected (ThrownError (new_Error (init_failed error)))).
Proof.
  intros Hthis Hflag Hsetup.
  unfold exec, init, bind, read, try_catch, await, set_isInitialized.
  rewrite Hthis. cbn. rewrite Hflag. cbn. rewrite Hsetup. reflexivity.
Qed.

Lemma exec_init_undefined this h w :
  h !! this = None ->
  exists e, exec RNMSAL (init this) h w = (h, w, [], Rejected e).
Proof.
  intros Hthis. unfold exec, init, bind, read. rewrite Hthis. cbn. eauto.
Qed.

(** [exec_call] on [init] is [exec] with the result wrapped. *)
Lemma exec_call_init this h w :
  exec_call RNMSAL this OInit h w =
  let '(h', w', calls, r) := exec RNMSAL (init this) h w in
  {| st_heap := h'; st_world := w'; st_calls := calls;
     st_result := match r with
                  | Resolved v => Resolved (VInstance v)
                  | Rejected e => Rejected e
                  end |}.
Proof.
  unfold exec_call, exec, call, M_map, bind.
  generalize (init this h). intros p. revert w.
  induction p as [[h' [v|e]]|c k IH]; intros w; cbn; [reflexivity..|].
  destruct (handle RNMSAL c w) as [w1 r]. specialize (IH r w1).
  destruct (run RNMSAL (k r) w1) as [[w2 calls] [h2 r2]].
  destruct (run RNMSAL (Async_bind (k r) _) w1) as [[w3 calls3] [h3 r3]].
  cbn in IH. inversion IH; subst. reflexivity.
Qed.

(** *** The flag along a run *)

Lemma flag_lookup h this o :
  h !! this = Some o -> flag h this = isInitialized o.
Proof. intros Hthis. unfold flag. rewrite Hthis. reflexivity. Qed.

Lemma flag_insert h this o x :
  h !! this = Some o ->
  flag (<[this := initialized o]> h) x = flag h x || Nat.eqb this x.
Proof.
  intros Hthis. unfold flag. destruct (Nat.eqb_spec this x) as [->|Hne].
  - rewrite list_lookup_insert_eq by (eapply lookup_lt_Some; eassumption).
    cbn. rewrite orb_true_r. reflexivity.
  - rewrite list_lookup_insert_ne by assumption. rewrite orb_false_r.
    reflexivity.
Qed.

(** The flag of an instance after a step: what it was, or the step is an
    [init] of that instance that resolved. *)
Lemma step_flag this op h w x :
  flag (st_heap (exec_call RNMSAL this op h w)) x
  = flag h x || init_succeeded x (this, op, exec_call RNMSAL this op h w).
Proof.
  destruct (is_init op) eqn:Hop.
  - destruct op; try discriminate. rewrite exec_call_init.
    unfold init_succeeded. cbn [is_init].
    destruct (h !! this) as [o|] eqn:Hthis.
    + destruct (isInitialized o) eqn:Hflag.
      * rewrite (exec_init_ready _ _ _ _ Hthis Hflag). cbn.
        destruct (Nat.eqb_spec this x) as [->|Hne]; cbn.
        -- rewrite (flag_lookup _ _ _ Hthis), Hflag. reflexivity.
        -- rewrite orb_false_r. reflexivity.
      * destruct (createPublicClientApplication RNMSAL (config o) w)
          as [w' [[]|e]] eqn:Hsetup.
        -- rewrite (exec_init_resolved _ _ _ _ _ Hthis Hflag Hsetup). cbn.
           rewrite (flag_insert _ _ _ _ Hthis), !andb_true_r. reflexivity.
        -- rewrite (exec_init_rejected _ _ _ _ _ _ Hthis Hflag Hsetup). cbn.
           rewrite andb_false_r, orb_false_r. reflexivity.
    + destruct (exec_init_undefined _ _ w Hthis) as [e ->]. cbn.
      rewrite andb_false_r, orb_false_r. reflexivity.
  - rewrite (exec_call_heap _ _ _ _ Hop). unfold init_succeeded.
    rewrite Hop, andb_false_r. cbn. rewrite orb_false_r. reflexivity.
Qed.

(** No step changes the configuration of an instance, or the instances
    there are. *)
Lemma step_config this op h w x :
  config <$> st_heap (exec_call RNMSAL this op h w) !! x = config <$> h !! x.
Proof.
  destruct (is_init op) eqn:Hop.
  - destruct op; try discriminate. rewrite exec_call_init.
    destruct (h !! this) as [o|] eqn:Hthis.
    + destruct (isInitialized o) eqn:Hflag.
      * rewrite (exec_init_ready _ _ _ _ Hthis Hflag). reflexivity.
      * destruct (createPublicClientApplication RNMSAL (config o) w)
          as [w' [[]|e]] eqn:Hsetup.
        -- rewrite (exec_init_resolved _ _ _ _ _ Hthis Hflag Hsetup). cbn.
           destruct (Nat.eqb_spec this x) as [->|Hne].
           ++ rewrite list_lookup_insert_eq
                by (eapply lookup_lt_Some; eassumption).
              rewrite Hthis. reflexivity.
           ++ rewrite list_lookup_insert_ne by assumption. reflexivity.
        -- rewrite (exec_init_rejected _ _ _ _ _ _ Hthis Hflag Hsetup).
           reflexivity.
    + destruct (exec_init_undefined _ _ w Hthis) as [e ->]. reflexivity.
  - rewrite (exec_call_heap _ _ _ _ Hop). reflexivity.
Qed.

Lemma script_flag script h w x :
  flag (fst (final h w (exec_script RNMSAL script h w))) x
  = flag h x || existsb (init_succeeded x) (exec_script RNMSAL script h w).
Proof.
  revert h w. induction script as [|[this op] rest IH]; intros h w; cbn.
  - rewrite orb_false_r. reflexivity.
  - rewrite IH, step_flag, orb_assoc. reflexivity.
Qed.

Lemma script_config script h w x :
  config <$> fst (final h w (exec_script RNMSAL script h w)) !! x
  = config <$> h !! x.
Proof.
  revert h w. induction script as [|[this op] rest IH]; intros h w; cbn.
  - reflexivity.
  - rewrite IH, step_config. reflexivity.
Qed.

(** An instance of the heap is still one after a run, with its
    configuration, and its flag is given by [flag]. *)
Lemma script_lookup script h w this o :
  h !! this = Some o ->
  exists o',
    fst (final h w (exec_script RNMSAL script h w)) !! this = Some o'
    /\ config o' = config o
    /\ isInitialized o' =
       isInitialized o
       || existsb (init_succeeded this) (exec_script RNMSAL script h w).
Proof.
  intros Hthis.
  pose proof (script_config script h w this) as Hc.
  pose proof (script_flag script h w this) as Hf.
  rewrite Hthis in Hc. rewrite (flag_lookup _ _ _ Hthis) in Hf.
  destruct (fst (final h w (exec_script RNMSAL script h w)) !! this)
    as [o'|] eqn:Hthis'; [|discriminate].
  exists o'. rewrite (flag_lookup _ _ _ Hthis') in Hf.
  cbn in Hc. split; [reflexivity|]. split; congruence.
Qed.

Lemma ready_forever script h w x :
  flag h x = true ->
  Forall (fun e => flag (st_heap (snd e)) x = true) (exec_script RNMSAL script h w).
Proof.
  revert h w. induction script as [|[this op] rest IH]; intros h w Hready; cbn.
  - constructor.
  - assert (flag (st_heap (exec_call RNMSAL this op h w)) x = true) as Hnext
      by (rewrite step_flag, Hready; reflexivity).
    constructor; [exact Hnext | apply IH; exact Hnext].
Qed.

Lemma rises_ready script h w x :
  flag h x = true -> rises x h (exec_script RNMSAL script h w) = 0.
Proof.
  revert h w. induction script as [|[this op] rest IH]; intros h w Hready; cbn.
  - reflexivity.
  - rewrite Hready. cbn. apply IH. rewrite step_flag, Hready. reflexivity.
Qed.

Lemma rises_at_most_once script h w x :
  rises x h (exec_script RNMSAL script h w) <= 1.
Proof.
  revert h w. induction script as [|[this op] rest IH]; intros h w; cbn.
  - lia.
  - destruct (flag (st_heap (exec_call RNMSAL this op h w)) x) eqn:Hnext.
    + rewrite (rises_ready rest _ _ x Hnext). destruct (negb (flag h x)); cbn; lia.
    + rewrite andb_false_r. cbn. apply IH.
Qed.

(** A run cut in two: the first steps are a run of the first calls, and the
    later steps a run of the others from the state the first steps end in. *)
Lemma exec_script_split script h w pre post :
  exec_script RNMSAL script h w = (pre ++ post)%list ->
  exists s1 s2,
    script = (s1 ++ s2)%list
    /\ exec_script RNMSAL s1 h w = pre
    /\ exec_script RNMSAL s2 (fst (final h w pre)) (snd (final h w pre)) = post.
Proof.
  revert script h w. induction pre as [|[[r op] s] pre IH]; intros script h w Hrun.
  - exists [], script. cbn. repeat split. exact Hrun.
  - destruct script as [|[this op'] rest]; [discriminate Hrun|].
    cbn in Hrun. injection Hrun as Hr Hop Hs Hrest. subst r op'.
    rewrite Hs in Hrest. destruct (IH _ _ _ Hrest) as (s1 & s2 & -> & Hpre & Hpost).
    exists ((this, op) :: s1), s2. cbn. rewrite Hs, Hpre.
    repeat split. exact Hpost.
Qed.

Lemma new_lookup (cfg : MSALConfiguration) h0 this h :
  new_PublicClientApplication cfg h0 = (this, h) ->
  h !! this = Some {| isInitialized := false; config := cfg |}.
Proof.
  unfold new_PublicClientApplication. intros [= <- <-].
  apply list_lookup_middle. reflexivity.
Qed.

Lemma after_init_ready this h0 w0 mid h w :
  after_init RNMSAL this h0 w0 mid h w ->
  exists o, h !! this = Some o /\ isInitialized o = true.
Proof.
  intros [Hres Hfin].
  pose proof (step_flag this OInit h0 w0 this) as Hstep.
  unfold init_succeeded in Hstep.
  rewrite Hres, Nat.eqb_refl, orb_true_r in Hstep.
  pose proof (script_flag mid (st_heap (exec_call RNMSAL this OInit h0 w0))
                (st_world (exec_call RNMSAL this OInit h0 w0)) this) as Hrun.
  rewrite Hfin, Hstep in Hrun. cbn in Hrun. unfold flag in Hrun.
  destruct (h !! this) as [o|]; [eauto | discriminate].
Qed.

Lemma exec_await h w (c : NativeCall) :
  run RNMSAL (Await c (fun r => Done (h, r))) w
  = let '(w', r) := handle RNMSAL c w in (w', [c], (h, r)).
Proof. cbn. destruct (handle RNMSAL c w). reflexivity. Qed.

(** *** The facade *)

(** C1. Whatever calls were made before, on this instance and on others, as
    long as no call of [init] on the instance has resolved, a call of any
    method other than [init] is rejected with the "not initialized" error:
    the method ends without awaiting the native module, which receives no
    call, and neither the heap nor the native state changes. *)
Theorem guard_before_init script h w this o op h1 w1 :
  h !! this = Some o -> isInitialized o = false ->
  existsb (init_succeeded this) (exec_script RNMSAL script h w) = false ->
  final h w (exec_script RNMSAL script h w) = (h1, w1) ->
  is_init op = false ->
  call this op h1 = Done (h1, Rejected not_initialized_error)
  /\ exec_call RNMSAL this op h1 w1
     = {| st_heap := h1; st_world := w1; st_calls := [];
          st_result := Rejected not_initialized_error |}.
Proof.
  intros Hthis Hflag Hnone Hfin Hop.
  destruct (script_lookup script h w this o Hthis) as (o' & Hthis' & _ & Hflag').
  rewrite Hfin in Hthis'. cbn in Hthis'. rewrite Hflag, Hnone in Hflag'.
  pose proof (call_uninitialized _ _ _ _ Hthis' Hflag' Hop) as Hcall.
  split; [exact Hcall | exact (exec_call_done _ _ _ _ _ Hcall)].
Qed.

(** C2. On an instance that is not initialized yet, two calls of [init] in
    sequence of which the first resolves: the first makes the one call
    [createPublicClientApplication(config)], the second makes no native
    call, changes nothing and resolves with the instance; setup is invoked
    exactly once over the two. *)
Theorem init_idempotent h w this o s1 s2 :
  h !! this = Some o -> isInitialized o = false ->
  exec_script RNMSAL [(this, OInit); (this, OInit)] h w
  = [(this, OInit, s1); (this, OInit, s2)] ->
  is_resolved (st_result s1) = true ->
  st_calls s1 = [CreatePublicClientApplication (config o)]
  /\ st_calls s2 = []
  /\ st_result s2 = Resolved (VInstance this)
  /\ st_heap s2 = st_heap s1 /\ st_world s2 = st_world s1
  /\ List.length (filter is_create (st_calls s1 ++ st_calls s2)%list) = 1.
Proof.
  intros Hthis Hflag Hrun Hres. cbn in Hrun.
  injection Hrun as Hs1 Hs2. rewrite Hs1 in Hs2.
  rewrite exec_call_init in Hs1.
  destruct (createPublicClientApplication RNMSAL (config o) w)
    as [w' [[]|e]] eqn:Hsetup.
  - rewrite (exec_init_resolved _ _ _ _ _ Hthis Hflag Hsetup) in Hs1.
    subst s1. cbn in Hs2 |- *.
    rewrite exec_call_init in Hs2.
    rewrite (exec_init_ready this _ w' (initialized o)) in Hs2.
    + subst s2. cbn. repeat split; reflexivity.
    + apply list_lookup_insert_eq. eapply lookup_lt_Some. exact Hthis.
    + reflexivity.
  - rewrite (exec_init_rejected _ _ _ _ _ _ Hthis Hflag Hsetup) in Hs1.
    subst s1. discriminate Hres.
Qed.

(** C3. On an instance that is not initialized, when
    [createPublicClientApplication] rejects with [error]: [init] leaves the
    heap as it was, so the flag stays false; it is rejected with an [Error]
    whose message is the text of [error] between the two fixed parts; and
    the next call of [init] calls [createPublicClientApplication(config)]
    again and, if that one resolves, resolves with the instance and sets
    the flag. *)
Theorem init_failure_retry h w this o w1 error :
  h !! this = Some o -> isInitialized o = false ->
  createPublicClientApplication RNMSAL (config o) w = (w1, Rejected error) ->
  let s1 := exec_call RNMSAL this OInit h w in
  let s2 := exec_call RNMSAL this OInit (st_heap s1) (st_world s1) in
  st_heap s1 = h /\ flag (st_heap s1) this = false
  /\ st_calls s1 = [CreatePublicClientApplication (config o)]
  /\ st_result s1 =
     Rejected (ThrownError (new_Error
       ("Failed to initialize PublicClientApplication: " +:+
        error_text error +:+
        ". Ensure the native MSAL module is properly linked and configured.")))
  /\ st_calls s2 = [CreatePublicClientApplication (config o)]
  /\ (forall w2,
        createPublicClientApplication RNMSAL (config o) w1 = (w2, Resolved tt) ->
        st_result s2 = Resolved (VInstance this)
        /\ flag (st_heap s2) this = true).
Proof.
  intros Hthis Hflag Hsetup s1 s2. subst s2 s1.
  rewrite !exec_call_init.
  rewrite (exec_init_rejected _ _ _ _ _ _ Hthis Hflag Hsetup). cbn.
  split; [reflexivity|]. split; [rewrite (flag_lookup _ _ _ Hthis); exact Hflag|].
  split; [reflexivity|]. split.
  - unfold init_failed. do 3 f_equal.
    rewrite !append_assoc. reflexivity.
  - destruct (createPublicClientApplication RNMSAL (config o) w1)
      as [w2 [[]|e]] eqn:Hretry.
    + rewrite (exec_init_resolved _ _ _ _ _ Hthis Hflag Hretry). cbn.
      split; [reflexivity|]. intros w2' Heq.
      split; [reflexivity|].
      rewrite (flag_insert _ _ _ _ Hthis), Nat.eqb_refl, orb_true_r.
      reflexivity.
    + rewrite (exec_init_rejected _ _ _ _ _ _ Hthis Hflag Hretry). cbn.
      split; [reflexivity|]. intros w2' Heq. discriminate Heq.
Qed.

Lemma exec_guarded_ready this h w o (c : NativeCall) :
  h !! this = Some o -> isInitialized o = true ->
  exec RNMSAL (let* _ := validateIsInitialized this in await c) h w
  = let '(w', r) := handle RNMSAL c w in (h, w', [c], r).
Proof.
  intros Hthis Hflag. unfold exec.
  rewrite (guarded_ready _ _ _ c Hthis Hflag), exec_await.
  destruct (handle RNMSAL c w). reflexivity.
Qed.

(** C4. In a state in which [init] has succeeded on the instance,
    [acquireToken(params)] and [acquireTokenSilent(params)] are the one
    call of the native method of the same name with [params], and they
    settle as that call settles: with its result, a token result or none,
    or with what it rejected with. The heap is not touched. *)
Theorem acquire_passthrough h0 w0 mid h w this
    (pi : MSALInteractiveParams) (ps : MSALSilentParams) :
  after_init RNMSAL this h0 w0 mid h w ->
  acquireToken this pi h = Await (AcquireToken pi) (fun r => Done (h, r))
  /\ acquireTokenSilent this ps h
     = Await (AcquireTokenSilent ps) (fun r => Done (h, r))
  /\ exec RNMSAL (acquireToken this pi) h w
     = (let '(w', r) := native_acquireToken RNMSAL pi w in
        (h, w', [AcquireToken pi], r))
  /\ exec RNMSAL (acquireTokenSilent this ps) h w
     = (let '(w', r) := native_acquireTokenSilent RNMSAL ps w in
        (h, w', [AcquireTokenSilent ps], r)).
Proof.
  intros Hafter. destruct (after_init_ready _ _ _ _ _ _ Hafter) as (o & Hthis & Hflag).
  repeat split.
  - exact (guarded_ready _ _ _ (AcquireToken pi) Hthis Hflag).
  - exact (guarded_ready _ _ _ (AcquireTokenSilent ps) Hthis Hflag).
  - exact (exec_guarded_ready _ _ w _ (AcquireToken pi) Hthis Hflag).
  - exact (exec_guarded_ready _ _ w _ (AcquireTokenSilent ps) Hthis Hflag).
Qed.

(** C5. In a state in which [init] has succeeded on the instance,
    [signOut(params)] on iOS is the one native call [signout(params)], on
    every other platform the one native call
    [removeAccount(params.account)]; either way it settles as that call
    settles, so a boolean the native module resolves with is returned as
    it is. *)
Theorem signOut_dispatch h0 w0 mid h w this (params : MSALSignoutParams) :
  after_init RNMSAL this h0 w0 mid h w ->
  (OS = ios ->
   exec RNMSAL (signOut this params) h w
   = (let '(w', r) := signout RNMSAL params w in
      (h, w', [Signout params], r)))
  /\ (OS <> ios ->
      exec RNMSAL (signOut this params) h w
      = (let '(w', r) := native_removeAccount RNMSAL (account params) w in
         (h, w', [RemoveAccount (account params)], r))).
Proof.
  intros Hafter. destruct (after_init_ready _ _ _ _ _ _ Hafter) as (o & Hthis & Hflag).
  rewrite signOut_guarded. split; intros Hos.
  - rewrite Hos. exact (exec_guarded_ready _ _ w _ (Signout params) Hthis Hflag).
  - destruct OS; try congruence;
      exact (exec_guarded_ready _ _ w _ (RemoveAccount (account params)) Hthis Hflag).
Qed.

(** C6. An instance is constructed with its flag false. Along any sequence
    of calls that follows, on it and on other instances: the flag goes from
    false to true at most once; it does so only in a call of [init] on the
    instance during which the native module resolved
    [createPublicClientApplication(config)]; and from a call of [init] on
    the instance that resolved onwards the flag is true after every step,
    whatever the later calls are and however the native module answers
    them. *)
Theorem flag_lifecycle (cfg : MSALConfiguration) h0 w script this h :
  new_PublicClientApplication cfg h0 = (this, h) ->
  let steps := exec_script RNMSAL script h w in
  flag h this = false
  /\ rises this h steps <= 1
  /\ (forall pre r op s post,
        steps = (pre ++ (r, op, s) :: post)%list ->
        flag (fst (final h w pre)) this = false ->
        flag (st_heap s) this = true ->
        r = this /\ op = OInit
        /\ createPublicClientApplication RNMSAL cfg (snd (final h w pre))
           = (st_world s, Resolved tt))
  /\ (forall pre e post,
        steps = (pre ++ e :: post)%list ->
        init_succeeded this e = true ->
        Forall (fun e' => flag (st_heap (snd e')) this = true) (e :: post)).
Proof.
  intros Hnew steps. subst steps. pose proof (new_lookup _ _ _ _ Hnew) as Hthis.
  split; [rewrite (flag_lookup _ _ _ Hthis); reflexivity|].
  split; [apply rises_at_most_once|]. split.
  - intros pre r op s post Hrun Hbefore Hafter.
    destruct (exec_script_split _ _ _ _ _ Hrun) as (s1 & s2 & -> & Hpre & Hpost).
    destruct s2 as [|[r' op'] s2]; [discriminate Hpost|].
    cbn in Hpost. injection Hpost as -> -> Hs _.
    destruct (script_lookup s1 h w this _ Hthis) as (o1 & Hthis1 & Hcfg & _).
    rewrite Hpre in Hthis1. cbn in Hcfg.
    set (h1 := fst (final h w pre)) in *. set (w1 := snd (final h w pre)) in *.
    pose proof (step_flag r op h1 w1 this) as Hstep.
    rewrite Hs, Hafter, Hbefore in Hstep. cbn in Hstep. symmetry in Hstep.
    apply andb_true_iff in Hstep as [Hstep Hres].
    apply andb_true_iff in Hstep as [Hr Hop].
    apply Nat.eqb_eq in Hr. subst r. destruct op; try discriminate Hop.
    split; [reflexivity|]. split; [reflexivity|].
    rewrite exec_call_init in Hs.
    assert (isInitialized o1 = false) as Hflag1
      by (rewrite <- (flag_lookup _ _ _ Hthis1); exact Hbefore).
    rewrite <- Hcfg.
    destruct (createPublicClientApplication RNMSAL (config o1) w1)
      as [w2 [[]|e]] eqn:Hsetup.
    + rewrite (exec_init_resolved _ _ _ _ _ Hthis1 Hflag1 Hsetup) in Hs.
      subst s. reflexivity.
    + rewrite (exec_init_rejected _ _ _ _ _ _ Hthis1 Hflag1 Hsetup) in Hs.
      subst s. discriminate Hres.
  - intros pre [[r op] s] post Hrun Hinit.
    destruct (exec_script_split _ _ _ _ _ Hrun) as (s1 & s2 & -> & Hpre & Hpost).
    destruct s2 as [|[r' op'] s2]; [discriminate Hpost|].
    cbn in Hpost. injection Hpost as -> -> Hs Hrest.
    assert (flag (st_heap s) this = true) as Hready.
    { rewrite <- Hs at 1. rewrite step_flag, Hs, Hinit, orb_true_r. reflexivity. }
    constructor; [exact Hready|].
    rewrite Hs in Hrest. rewrite <- Hrest. apply ready_forever. exact Hready.
Qed.

(** C7. [init] on an instance that is initialized already, or whose setup
    the native module resolves, resolves with the reference it was called
    on, and the instance behind it is initialized. *)
Theorem init_returns_this h w this o :
  h !! this = Some o ->
  (isInitialized o = true
   \/ exists w1, createPublicClientApplication RNMSAL (config o) w = (w1, Resolved tt)) ->
  exists h' w' calls,
    exec RNMSAL (init this) h w = (h', w', calls, Resolved this)
    /\ flag h' this = true.
Proof.
  intros Hthis Hcase. destruct (isInitialized o) eqn:Hflag.
  - exists h, w, []. split.
    + exact (exec_init_ready _ _ _ _ Hthis Hflag).
    + rewrite (flag_lookup _ _ _ Hthis). exact Hflag.
  - destruct Hcase as [Habs | [w1 Hsetup]]; [discriminate Habs|].
    exists (<[this := initialized o]> h), w1,
      [CreatePublicClientApplication (config o)]. split.
    + exact (exec_init_resolved _ _ _ _ _ Hthis Hflag Hsetup).
    + rewrite (flag_insert _ _ _ _ Hthis), Nat.eqb_refl, orb_true_r. reflexivity.
Qed.

(** C8. Without a native module [RNMSAL], evaluating [nativeModule.ts]
    throws an [Error] that names the module and the linking command, and so
    does evaluating the module of the class, which imports it: no class is
    exported whose methods could be called. With a native module the class
    is exported, bound to it. The evaluation tests the binding once. *)
Theorem missing_native_module :
  nativeModule (W := W) None
  = Threw (ThrownError (new_Error native_module_missing))
  /\ publicClientApplication_native (W := W) None
     = Threw (ThrownError (new_Error native_module_missing))
  /\ occurs "Native module RNMSAL is not available" native_module_missing = true
  /\ occurs "npx react-native link react-native-msal" native_module_missing = true
  /\ (forall m : RNMSALNativeModule W,
        publicClientApplication_native (Some m) = Exports (exec_call m)).
Proof.
  split; [reflexivity|]. split; [reflexivity|].
  split; [vm_compute; reflexivity|]. split; [vm_compute; reflexivity|].
  intros m. reflexivity.
Qed.

(** C9. On an instance that is not initialized, the rejection of a method
    other than [init] and the rejection of an [init] whose setup fails are
    both instances of the one class [Error]: the class does not tell them
    apart, the messages do. *)
Theorem error_kinds_share_class h w this o op w1 error :
  h !! this = Some o -> isInitialized o = false -> is_init op = false ->
  createPublicClientApplication RNMSAL (config o) w = (w1, Rejected error) ->
  exists guard_error init_error,
    st_result (exec_call RNMSAL this op h w) = Rejected (ThrownError guard_error)
    /\ st_result (exec_call RNMSAL this OInit h w)
       = Rejected (ThrownError init_error)
    /\ error_class guard_error = "Error"
    /\ error_class init_error = "Error"
    /\ message guard_error <> message init_error.
Proof.
  intros Hthis Hflag Hop Hsetup.
  exists (new_Error not_initialized), (new_Error (init_failed error)).
  rewrite (exec_call_done _ _ _ w _ (call_uninitialized _ _ _ _ Hthis Hflag Hop)).
  rewrite exec_call_init, (exec_init_rejected _ _ _ _ _ _ Hthis Hflag Hsetup).
  cbn. repeat split. intros Heq.
  apply (f_equal (fun s => match s with String c _ => Some c | EmptyString => None end))
    in Heq.
  vm_compute in Heq. discriminate Heq.
Qed.

(** C10. Where the platform is not iOS, [signOut] uses of its parameters
    the account only: with the same account, it is the same program, and
    against any native module in any state it makes the same calls, leaves
    the same state and settles the same way. *)
Theorem signOut_account_only this (p1 p2 : MSALSignoutParams) h w :
  OS <> ios -> account p1 = account p2 ->
  signOut this p1 h = signOut this p2 h
  /\ exec RNMSAL (signOut this p1) h w = exec RNMSAL (signOut this p2) h w.
Proof.
  intros Hos Hacc.
  assert (signOut this p1 h = signOut this p2 h) as Hsame.
  { rewrite !signOut_guarded. destruct OS; try congruence; rewrite Hacc; reflexivity. }
  split; [exact Hsame|]. unfold exec. rewrite Hsame. reflexivity.
Qed.

End Properties.

(** ** The properties on the concrete application *)

#[local] Existing Instances Demo.types Demo.js.

(** After a call that is rejected by the guard and an [init] that fails,
    [acquireToken] is rejected by the guard. *)
Lemma guard_before_init_witness :
  call (P := Demo.on_android) 0 (OAcquireToken ["read"]) (snd Demo.pca)
  = Done (snd Demo.pca, Rejected not_initialized_error)
  /\ exec_call (P := Demo.on_android) Demo.RNMSAL 0 (OAcquireToken ["read"])
       (snd Demo.pca) (1, [])
     = {| st_heap := snd Demo.pca; st_world := (1, []); st_calls := [];
          st_result := Rejected not_initialized_error |}.
Proof.
  apply (guard_before_init (P := Demo.on_android) Demo.RNMSAL
           [(0, OGetAccounts); (0, OInit)] (snd Demo.pca) (0, []) 0
           Demo.fresh);
    reflexivity.
Defined.

(** Two calls of [init] where setup succeeds. *)
Lemma init_idempotent_witness :
  let s1 := exec_call (P := Demo.on_android) Demo.RNMSAL 0 OInit (snd Demo.pca) (1, []) in
  let s2 := exec_call (P := Demo.on_android) Demo.RNMSAL 0 OInit (st_heap s1) (st_world s1) in
  st_calls s1 = [CreatePublicClientApplication "abc"]
  /\ st_calls s2 = []
  /\ st_result s2 = Resolved (VInstance 0)
  /\ st_heap s2 = st_heap s1 /\ st_world s2 = st_world s1
  /\ List.length (filter is_create (st_calls s1 ++ st_calls s2)%list) = 1.
Proof.
  apply (init_idempotent (P := Demo.on_android) Demo.RNMSAL (snd Demo.pca) (1, []) 0
           Demo.fresh);
    reflexivity.
Defined.

(** A first [init] that fails with "no network", then a retry. *)
Lemma init_failure_retry_witness :
  let s1 := exec_call (P := Demo.on_android) Demo.RNMSAL 0 OInit (snd Demo.pca) (0, []) in
  let s2 := exec_call (P := Demo.on_android) Demo.RNMSAL 0 OInit (st_heap s1) (st_world s1) in
  st_heap s1 = snd Demo.pca /\ flag (st_heap s1) 0 = false
  /\ st_calls s1 = [CreatePublicClientApplication "abc"]
  /\ st_result s1 =
     Rejected (ThrownError (new_Error
       ("Failed to initialize PublicClientApplication: " +:+ "no network" +:+
        ". Ensure the native MSAL module is properly linked and configured.")))
  /\ st_calls s2 = [CreatePublicClientApplication "abc"]
  /\ (forall w2,
        Demo.setup "abc" (1, []) = (w2, Resolved tt) ->
        st_result s2 = Resolved (VInstance 0) /\ flag (st_heap s2) 0 = true).
Proof.
  apply (init_failure_retry (P := Demo.on_android) Demo.RNMSAL (snd Demo.pca) (0, []) 0
           Demo.fresh (1, [])
           (ThrownError (mkJsError "Error" "no network")));
    reflexivity.
Defined.

(** The heap and the native state after a successful [init] and a silent
    request that the native module rejects. *)
Lemma demo_after_init :
  after_init (P := Demo.on_android) Demo.RNMSAL 0 (snd Demo.pca) (1, [])
    [(0, OAcquireTokenSilent ("u1", []))] Demo.ready_heap (2, []).
Proof. split; reflexivity. Defined.

Lemma demo_after_init_ios :
  after_init (P := Demo.on_ios) Demo.RNMSAL 0 (snd Demo.pca) (1, [])
    [(0, OAcquireTokenSilent ("u1", []))] Demo.ready_heap (2, []).
Proof. split; reflexivity. Defined.

Lemma acquire_passthrough_witness :
  acquireToken 0 [] Demo.ready_heap = Await (AcquireToken []) (fun r => Done (Demo.ready_heap, r))
  /\ acquireTokenSilent 0 ("u1", []) Demo.ready_heap
     = Await (AcquireTokenSilent ("u1", [])) (fun r => Done (Demo.ready_heap, r))
  /\ exec Demo.RNMSAL (acquireToken 0 []) Demo.ready_heap (2, [])
     = (let '(w', r) := Demo.interactive [] (2, []) in
        (Demo.ready_heap, w', [AcquireToken []], r))
  /\ exec Demo.RNMSAL (acquireTokenSilent 0 ("u1", [])) Demo.ready_heap (2, [])
     = (let '(w', r) := Demo.silent ("u1", []) (2, []) in
        (Demo.ready_heap, w', [AcquireTokenSilent ("u1", [])], r)).
Proof.
  exact (acquire_passthrough (P := Demo.on_android) Demo.RNMSAL _ _ _ _ _ 0
           [] ("u1", []) demo_after_init).
Defined.

Lemma signOut_dispatch_witness :
  exec (W := Demo.World) Demo.RNMSAL (signOut (P := Demo.on_ios) 0 ("u1", true)) Demo.ready_heap (2, [])
  = (Demo.ready_heap, (2, []), [Signout ("u1", true)], Resolved true)
  /\ exec (W := Demo.World) Demo.RNMSAL (signOut (P := Demo.on_android) 0 ("u1", true)) Demo.ready_heap (2, [])
     = (Demo.ready_heap, (2, []), [RemoveAccount "u1"], Resolved false).
Proof.
  split.
  - apply (proj1 (signOut_dispatch (P := Demo.on_ios) Demo.RNMSAL _ _ _ _ _ 0
                    ("u1", true) demo_after_init_ios)).
    reflexivity.
  - apply (proj2 (signOut_dispatch (P := Demo.on_android) Demo.RNMSAL _ _ _ _ _ 0
                    ("u1", true) demo_after_init)).
    discriminate.
Defined.

Lemma flag_lifecycle_witness :
  let steps := exec_script (P := Demo.on_android) Demo.RNMSAL Demo.script
                 (snd Demo.pca) (0, []) in
  flag (snd Demo.pca) 0 = false
  /\ rises 0 (snd Demo.pca) steps <= 1
  /\ (forall pre r op s post,
        steps = (pre ++ (r, op, s) :: post)%list ->
        flag (fst (final (snd Demo.pca) (0, []) pre)) 0 = false ->
        flag (st_heap s) 0 = true ->
        r = 0 /\ op = OInit
        /\ createPublicClientApplication Demo.RNMSAL "abc"
             (snd (final (snd Demo.pca) (0, []) pre))
           = (st_world s, Resolved tt))
  /\ (forall pre e post,
        steps = (pre ++ e :: post)%list ->
        init_succeeded 0 e = true ->
        Forall (fun e' => flag (st_heap (snd e')) 0 = true) (e :: post)).
Proof.
  apply (flag_lifecycle (P := Demo.on_android) Demo.RNMSAL "abc" []).
  reflexivity.
Defined.

Lemma init_returns_this_witness :
  exists h' w' calls,
    exec Demo.RNMSAL (init 0) (snd Demo.pca) (1, []) = (h', w', calls, Resolved 0)
    /\ flag h' 0 = true.
Proof.
  apply (init_returns_this Demo.RNMSAL (snd Demo.pca) (1, []) 0 Demo.fresh).
  - reflexivity.
  - right. exists (2, []). reflexivity.
Defined.

Lemma error_kinds_share_class_witness :
  exists guard_error init_error,
    st_result (exec_call (P := Demo.on_android) Demo.RNMSAL 0 OGetAccounts
                 (snd Demo.pca) (0, []))
    = Rejected (ThrownError guard_error)
    /\ st_result (exec_call (P := Demo.on_android) Demo.RNMSAL 0 OInit
                    (snd Demo.pca) (0, []))
       = Rejected (ThrownError init_error)
    /\ error_class guard_error = "Error"
    /\ error_class init_error = "Error"
    /\ message guard_error <> message init_error.
Proof.
  apply (error_kinds_share_class (P := Demo.on_android) Demo.RNMSAL
           (snd Demo.pca) (0, []) 0 Demo.fresh OGetAccounts (1, [])
           (ThrownError (mkJsError "Error" "no network")));
    reflexivity.
Defined.

(** On Android, signing out with and without [signoutFromBrowser]. *)
Lemma signOut_account_only_witness :
  signOut (P := Demo.on_android) 0 ("u1", true) Demo.ready_heap
  = signOut (P := Demo.on_android) 0 ("u1", false) Demo.ready_heap
  /\ exec Demo.RNMSAL (signOut (P := Demo.on_android) 0 ("u1", true))
       Demo.ready_heap (2, ["u1"])
     = exec Demo.RNMSAL (signOut (P := Demo.on_android) 0 ("u1", false))
         Demo.ready_heap (2, ["u1"]).
Proof.
  apply (signOut_account_only (P := Demo.on_android) Demo.RNMSAL 0
           ("u1", true) ("u1", false) Demo.ready_heap (2, ["u1"])).
  - discriminate.
  - reflexivity.
Defined.

(** ** More on the class *)

Section MoreProperties.

Context {T : Types} {J : Js} {P : Platform}.
Context {W : Type} (RNMSAL : RNMSALNativeModule W).

Implicit Types (h : Heap) (w : W) (this : ref) (o : PublicClientApplication).

Lemma string_length_append (a b : string) :
  String.length (a +:+ b) = String.length a + String.length b.
Proof.
  induction a as [|x a IH]; [reflexivity|].
  change (S (String.length (a +:+ b)) = S (String.length a + String.length b)).
  rewrite IH. reflexivity.
Qed.

(** X1. In a state in which [init] has succeeded on the instance,
    [getAccounts()], [getAccount(id)] and [removeAccount(account)] are each
    the one native call of the same name with the same argument, and settle
    as that call settles; the heap is not touched. *)
Theorem account_methods_passthrough h0 w0 mid h w this
    (i : string) (a : MSALAccount) :
  after_init RNMSAL this h0 w0 mid h w ->
  exec RNMSAL (getAccounts this) h w
  = (let '(w', r) := native_getAccounts RNMSAL w in (h, w', [GetAccounts], r))
  /\ exec RNMSAL (getAccount this i) h w
     = (let '(w', r) := native_getAccount RNMSAL i w in (h, w', [GetAccount i], r))
  /\ exec RNMSAL (removeAccount this a) h w
     = (let '(w', r) := native_removeAccount RNMSAL a w in
        (h, w', [RemoveAccount a], r)).
Proof.
  intros Hafter.
  destruct (after_init_ready _ _ _ _ _ _ _ Hafter) as (o & Hthis & Hflag).
  repeat split.
  - exact (exec_guarded_ready RNMSAL _ _ w _ GetAccounts Hthis Hflag).
  - exact (exec_guarded_ready RNMSAL _ _ w _ (GetAccount i) Hthis Hflag).
  - exact (exec_guarded_ready RNMSAL _ _ w _ (RemoveAccount a) Hthis Hflag).
Qed.

(** X2. No sequence of calls changes the configuration an instance was
    constructed with, or the number of instances: [config] is read-only
    and the class has no method that constructs or discards. *)
Theorem config_readonly script h w x :
  let h' := fst (final h w (exec_script RNMSAL script h w)) in
  config <$> h' !! x = config <$> h !! x /\ List.length h' = List.length h.
Proof.
  intros h'. subst h'.
  assert (forall y, config <$> fst (final h w (exec_script RNMSAL script h w)) !! y
                    = config <$> h !! y) as Hcfg
    by (intros y; apply script_config).
  split; [apply Hcfg|].
  set (h' := fst (final h w (exec_script RNMSAL script h w))) in *.
  destruct (Nat.lt_trichotomy (List.length h') (List.length h)) as [Hlt|[Heq|Hgt]].
  - specialize (Hcfg (List.length h')).
    rewrite (lookup_ge_None_2 h') in Hcfg by lia.
    destruct (lookup_lt_is_Some_2 h _ Hlt) as [o Ho].
    rewrite Ho in Hcfg. discriminate Hcfg.
  - exact Heq.
  - specialize (Hcfg (List.length h)).
    rewrite (lookup_ge_None_2 h) in Hcfg by lia.
    destruct (lookup_lt_is_Some_2 h' _ Hgt) as [o Ho].
    rewrite Ho in Hcfg. discriminate Hcfg.
Qed.

Lemma exec_init_calls this h w o :
  h !! this = Some o ->
  st_calls (exec_call RNMSAL this OInit h w)
  = if isInitialized o then [] else [CreatePublicClientApplication (config o)].
Proof.
  intros Hthis. rewrite exec_call_init. destruct (isInitialized o) eqn:Hflag.
  - rewrite (exec_init_ready RNMSAL _ _ _ _ Hthis Hflag). reflexivity.
  - destruct (createPublicClientApplication RNMSAL (config o) w)
      as [w' [[]|e]] eqn:Hsetup.
    + rewrite (exec_init_resolved RNMSAL _ _ _ _ _ Hthis Hflag Hsetup). reflexivity.
    + rewrite (exec_init_rejected RNMSAL _ _ _ _ _ _ Hthis Hflag Hsetup). reflexivity.
Qed.

(** X3. An instance constructed with [config] only ever sets up the native
    module with that [config]: in any run from construction, a call of
    [init] on it makes no native call when its flag is set and exactly the
    call [createPublicClientApplication(config)] when it is not. *)
Theorem init_uses_constructor_config (cfg : MSALConfiguration) h0 w script this h
    pre s post :
  new_PublicClientApplication cfg h0 = (this, h) ->
  exec_script RNMSAL script h w = (pre ++ (this, OInit, s) :: post)%list ->
  st_calls s
  = if flag (fst (final h w pre)) this then []
    else [CreatePublicClientApplication cfg].
Proof.
  intros Hnew Hrun. pose proof (new_lookup _ _ _ _ Hnew) as Hthis.
  destruct (exec_script_split RNMSAL _ _ _ _ _ Hrun) as (s1 & s2 & -> & Hpre & Hpost).
  destruct s2 as [|[r' op'] s2]; [discriminate Hpost|].
  cbn in Hpost. injection Hpost as -> -> Hs _.
  destruct (script_lookup RNMSAL s1 h w this _ Hthis) as (o1 & Hthis1 & Hcfg & _).
  rewrite Hpre in Hthis1. cbn in Hcfg.
  rewrite <- Hs, (exec_init_calls _ _ _ _ Hthis1), (flag_lookup _ _ _ Hthis1), Hcfg.
  reflexivity.
Qed.

Lemma step_other this op h w x :
  this <> x -> st_heap (exec_call RNMSAL this op h w) !! x = h !! x.
Proof.
  intros Hne. destruct (is_init op) eqn:Hop.
  - destruct op; try discriminate. rewrite exec_call_init.
    destruct (h !! this) as [o|] eqn:Hthis.
    + destruct (isInitialized o) eqn:Hflag.
      * rewrite (exec_init_ready RNMSAL _ _ _ _ Hthis Hflag). reflexivity.
      * destruct (createPublicClientApplication RNMSAL (config o) w)
          as [w' [[]|e]] eqn:Hsetup.
        -- rewrite (exec_init_resolved RNMSAL _ _ _ _ _ Hthis Hflag Hsetup). cbn.
           apply list_lookup_insert_ne. exact Hne.
        -- rewrite (exec_init_rejected RNMSAL _ _ _ _ _ _ Hthis Hflag Hsetup).
           reflexivity.
    + destruct (exec_init_undefined RNMSAL _ _ w Hthis) as [e ->]. reflexivity.
  - rewrite (exec_call_heap RNMSAL _ _ _ _ Hop). reflexivity.
Qed.

(** X4. The flag belongs to the instance, the native module is shared:
    calls on other instances leave an instance as it is, so an instance
    that is not initialized still calls
    [createPublicClientApplication(config)] in its [init], whatever has been
    initialized through the others. *)
Theorem instances_independent script h w this o :
  h !! this = Some o ->
  Forall (fun c => fst c <> this) script ->
  let '(h1, w1) := final h w (exec_script RNMSAL script h w) in
  h1 !! this = Some o
  /\ (isInitialized o = false ->
      st_calls (exec_call RNMSAL this OInit h1 w1)
      = [CreatePublicClientApplication (config o)]).
Proof.
  intros Hthis Hother.
  assert (fst (final h w (exec_script RNMSAL script h w)) !! this = Some o) as Hkeep.
  { revert h w Hthis. induction Hother as [|[r op] rest Hr _ IH]; intros h w Hthis.
    - exact Hthis.
    - cbn. apply IH. rewrite (step_other _ _ _ _ _ Hr). exact Hthis. }
  destruct (final h w (exec_script RNMSAL script h w)) as [h1 w1]. cbn in Hkeep.
  split; [exact Hkeep|]. intros Hflag.
  rewrite (exec_init_calls _ _ _ _ Hkeep), Hflag. reflexivity.
Qed.

(** X5. A method never calls the native module twice: every call of a
    method, in any state, makes at most one native call, so a rejected
    native call is not repeated; and no method other than [init] writes
    the heap. *)
Theorem at_most_one_native_call this op h w :
  List.length (st_calls (exec_call RNMSAL this op h w)) <= 1
  /\ (is_init op = false -> st_heap (exec_call RNMSAL this op h w) = h).
Proof.
  split; [|apply exec_call_heap].
  destruct (is_init op) eqn:Hop.
  - destruct op; try discriminate.
    destruct (h !! this) as [o|] eqn:Hthis.
    + rewrite (exec_init_calls _ _ _ _ Hthis). destruct (isInitialized o); cbn; lia.
    + rewrite exec_call_init.
      destruct (exec_init_undefined RNMSAL _ _ w Hthis) as [e ->]. cbn. lia.
  - destruct (validate_cases this h) as [r Hv].
    destruct op; try discriminate;
      unfold exec_call, exec, call, M_map, acquireToken, acquireTokenSilent,
        getAccounts, getAccount, removeAccount, signOut, Platform_select;
      cbn [sel_ios sel_default]; try destruct OS;
      unfold bind; rewrite Hv; destruct r as [[]|e]; cbn -[handle];
      try lia;
      destruct (handle RNMSAL _ w) as [? [?|?]]; cbn; lia.
Qed.

(** X6. [init] does not pass the rejection of the native module on: when
    [createPublicClientApplication] rejects, what [init] rejects with is a
    new [Error], never the value the native module rejected with. *)
Theorem init_rejection_is_new this h w o w1 error :
  h !! this = Some o -> isInitialized o = false ->
  createPublicClientApplication RNMSAL (config o) w = (w1, Rejected error) ->
  exists e, st_result (exec_call RNMSAL this OInit h w) = Rejected (ThrownError e)
            /\ error_class e = "Error"
            /\ ThrownError e <> error.
Proof.
  intros Hthis Hflag Hsetup. exists (new_Error (init_failed error)).
  rewrite exec_call_init, (exec_init_rejected RNMSAL _ _ _ _ _ _ Hthis Hflag Hsetup).
  cbn. repeat split. intros Heq.
  apply (f_equal error_text) in Heq. cbn in Heq.
  apply (f_equal String.length) in Heq. unfold init_failed in Heq.
  rewrite !string_length_append in Heq. cbn in Heq. lia.
Qed.

End MoreProperties.

(** ** The service and the context *)

Section AppProperties.

Context {T : Types} {J : Js} {P : Platform} {AT : AppTypes}.
Context {W : Type} (RNMSAL : RNMSALNativeModule W).

Implicit Types (h : Heap) (w : W) (pca : ref) (rt : Runtime).

(** *** Running composed programs *)

Lemma run_bind {A B} (p : Async A) (k : A -> Async B) w :
  run RNMSAL (Async_bind p k) w
  = let '(w1, c1, a) := run RNMSAL p w in
    let '(w2, c2, b) := run RNMSAL (k a) w1 in
    (w2, (c1 ++ c2)%list, b).
Proof.
  revert w. induction p as [a|c k' IH]; intros w; cbn.
  - destruct (run RNMSAL (k a) w) as [[w2 c2] b]. reflexivity.
  - destruct (handle RNMSAL c w) as [w1 r]. rewrite IH.
    destruct (run RNMSAL (k' r) w1) as [[w2 c1] a].
    destruct (run RNMSAL (k a) w2) as [[w3 c2] b]. reflexivity.
Qed.

Lemma exec_st_bind {S A B} (m : St S A) (f : A -> St S B) (s : S) w :
  exec_st RNMSAL (st_bind m f) s w
  = let '(s1, w1, c1, r) := exec_st RNMSAL m s w in
    match r with
    | Resolved a =>
        let '(s2, w2, c2, r2) := exec_st RNMSAL (f a) s1 w1 in
        (s2, w2, (c1 ++ c2)%list, r2)
    | Rejected e => (s1, w1, c1, Rejected e)
    end.
Proof.
  unfold exec_st, st_bind. rewrite run_bind.
  destruct (run RNMSAL (m s) w) as [[w1 c1] [s1 [a|e]]]; cbn.
  - destruct (run RNMSAL (f a s1) w1) as [[w2 c2] [s2 r2]]. reflexivity.
  - rewrite app_nil_r. reflexivity.
Qed.

Lemma exec_st_try {S A} (m : St S A) (handler : JsThrown -> St S A) (s : S) w :
  exec_st RNMSAL (st_try m handler) s w
  = let '(s1, w1, c1, r) := exec_st RNMSAL m s w in
    match r with
    | Resolved a => (s1, w1, c1, Resolved a)
    | Rejected e =>
        let '(s2, w2, c2, r2) := exec_st RNMSAL (handler e) s1 w1 in
        (s2, w2, (c1 ++ c2)%list, r2)
    end.
Proof.
  unfold exec_st, st_try. rewrite run_bind.
  destruct (run RNMSAL (m s) w) as [[w1 c1] [s1 [a|e]]]; cbn.
  - rewrite app_nil_r. reflexivity.
  - destruct (run RNMSAL (handler e s1) w1) as [[w2 c2] [s2 r2]]. reflexivity.
Qed.

Lemma exec_st_finally {S A} (m : St S A) (fin : St S unit) (s : S) w :
  exec_st RNMSAL (st_finally m fin) s w
  = let '(s1, w1, c1, r) := exec_st RNMSAL m s w in
    let '(s2, w2, c2, r2) := exec_st RNMSAL fin s1 w1 in
    (s2, w2, (c1 ++ c2)%list,
     match r2 with Resolved _ => r | Rejected e => Rejected e end).
Proof.
  unfold exec_st, st_finally. rewrite run_bind.
  destruct (run RNMSAL (m s) w) as [[w1 c1] [s1 r]]. rewrite run_bind.
  cbn [fst snd].
  destruct (run RNMSAL (fin s1) w1) as [[w2 c2] [s2 [[]|e]]]; cbn;
    rewrite app_nil_r; reflexivity.
Qed.

Lemma exec_st_zoom {S S' A} (get : S' -> S) (put : S -> S' -> S') (m : St S A)
    (s' : S') w :
  exec_st RNMSAL (zoom get put m) s' w
  = let '(s1, w1, c1, r) := exec_st RNMSAL m (get s') w in
    (put s1 s', w1, c1, r).
Proof.
  unfold exec_st, zoom. rewrite run_bind.
  destruct (run RNMSAL (m (get s')) w) as [[w1 c1] [s1 r]]. cbn.
  rewrite app_nil_r. reflexivity.
Qed.

(** A method of the class called from the application: the method run on
    the heap, the console kept. *)
Lemma exec_on_heap {A} (m : M A) rt w :
  exec_st RNMSAL (on_heap m) rt w
  = let '(h1, w1, c1, r) := exec RNMSAL m (rt_heap rt) w in
    ({| rt_heap := h1; rt_console := rt_console rt |}, w1, c1, r).
Proof. unfold on_heap. rewrite exec_st_zoom. reflexivity. Qed.

(** The shape of every function of the service: a method of the class in a
    [try], then lines to the console and a value that do not depend on
    anything else. *)
Lemma exec_service {A B} (m : M A) (ok : A -> St Runtime B)
    (ko : JsThrown -> St Runtime B) rt w :
  exec_st RNMSAL (st_try (st_bind (on_heap m) ok) ko) rt w
  = let '(h1, w1, c1, r) := exec RNMSAL m (rt_heap rt) w in
    let rt1 := {| rt_heap := h1; rt_console := rt_console rt |} in
    let '(rt2, w2, c2, r2) :=
      match r with
      | Resolved a => exec_st RNMSAL (st_try (ok a) ko) rt1 w1
      | Rejected e => exec_st RNMSAL (ko e) rt1 w1
      end in
    (rt2, w2, (c1 ++ c2)%list, r2).
Proof.
  rewrite exec_st_try, exec_st_bind, exec_on_heap.
  destruct (exec RNMSAL m (rt_heap rt) w) as [[[h1 w1] c1] [a|e]]; cbn zeta.
  - rewrite exec_st_try.
    destruct (exec_st RNMSAL (ok a) _ w1) as [[[s2 w2] c2] [b|e]].
    + reflexivity.
    + destruct (exec_st RNMSAL (ko e) s2 w2) as [[[s3 w3] c3] r3].
      rewrite app_assoc. reflexivity.
  - reflexivity.
Qed.

(** *** The functions of the service, by how the method they call settles *)

Ltac service_cases :=
  rewrite exec_service;
  match goal with
  | |- context [exec RNMSAL ?m ?h ?w] =>
      destruct (exec RNMSAL m h w) as [[[? ?] ?] [[]|?]] +
      destruct (exec RNMSAL m h w) as [[[? ?] ?] [?|?]]
  end;
  cbn; unfold logged; cbn; rewrite ?app_nil_r, <- ?app_assoc; reflexivity.

Lemma exec_initializeMSAL pca rt w :
  exec_st RNMSAL (msalService.initializeMSAL pca) rt w
  = let '(h1, w1, c1, r) := exec RNMSAL (init pca) (rt_heap rt) w in
    match r with
    | Resolved _ =>
        (logged rt h1 [line Console_log [Text "✅ MSAL initialized successfully"]],
         w1, c1, Resolved true)
    | Rejected e =>
        (logged rt h1
           [line Console_error [Text "❌ MSAL initialization failed:"; Caught e]],
         w1, c1, Resolved false)
    end.
Proof. unfold msalService.initializeMSAL. service_cases. Qed.

Lemma exec_login pca scopes rt w :
  exec_st RNMSAL (msalService.login pca scopes) rt w
  = let '(h1, w1, c1, r) :=
      exec RNMSAL
        (acquireToken pca (interactive_params (msalService.scopes_or_default scopes)))
        (rt_heap rt) w in
    match r with
    | Resolved (Some res) =>
        (logged rt h1
           [line Console_log [Text "✅ Login successful"];
            line Console_log [Text "User:"; Text (username (result_account res))]],
         w1, c1, Resolved (Some res))
    | Resolved None => (logged rt h1 [], w1, c1, Resolved None)
    | Rejected e =>
        (logged rt h1 [line Console_error [Text "❌ Login failed:"; Caught e]],
         w1, c1, Resolved None)
    end.
Proof. unfold msalService.login. service_cases. Qed.

Lemma exec_loginSilent pca a scopes rt w :
  exec_st RNMSAL (msalService.loginSilent pca a scopes) rt w
  = let '(h1, w1, c1, r) :=
      exec RNMSAL
        (acquireTokenSilent pca
           (silent_params a (msalService.scopes_or_default scopes) false))
        (rt_heap rt) w in
    match r with
    | Resolved (Some res) =>
        (logged rt h1 [line Console_log [Text "✅ Silent login successful"]],
         w1, c1, Resolved (Some res))
    | Resolved None => (logged rt h1 [], w1, c1, Resolved None)
    | Rejected e =>
        (logged rt h1
           [line Console_error
              [Text "❌ Silent login failed (user may need to login interactively):";
               Caught e]],
         w1, c1, Resolved None)
    end.
Proof. unfold msalService.loginSilent. service_cases. Qed.

Lemma exec_service_getAccounts pca rt w :
  exec_st RNMSAL (msalService.getAccounts pca) rt w
  = let '(h1, w1, c1, r) := exec RNMSAL (getAccounts pca) (rt_heap rt) w in
    match r with
    | Resolved accounts =>
        (logged rt h1
           [line Console_log
              [Text ("✅ Found " +:+ number (List.length accounts) +:+ " account(s)")]],
         w1, c1, Resolved accounts)
    | Rejected e =>
        (logged rt h1 [line Console_error [Text "❌ Get accounts failed:"; Caught e]],
         w1, c1, Resolved [])
    end.
Proof. unfold msalService.getAccounts. service_cases. Qed.

Lemma exec_service_getAccount pca i rt w :
  exec_st RNMSAL (msalService.getAccount pca i) rt w
  = let '(h1, w1, c1, r) := exec RNMSAL (getAccount pca i) (rt_heap rt) w in
    match r with
    | Resolved a =>
        (logged rt h1 [line Console_log [Text "✅ Account retrieved"]],
         w1, c1, Resolved a)
    | Rejected e =>
        (logged rt h1 [line Console_error [Text "❌ Get account failed:"; Caught e]],
         w1, c1, Resolved None)
    end.
Proof. unfold msalService.getAccount. service_cases. Qed.

Lemma exec_logout pca a rt w :
  exec_st RNMSAL (msalService.logout pca a) rt w
  = let '(h1, w1, c1, r) :=
      exec RNMSAL (signOut pca (signout_params a true)) (rt_heap rt) w in
    match r with
    | Resolved _ =>
        (logged rt h1 [line Console_log [Text "✅ Logout successful"]],
         w1, c1, Resolved true)
    | Rejected e =>
        (logged rt h1 [line Console_error [Text "❌ Logout failed:"; Caught e]],
         w1, c1, Resolved false)
    end.
Proof. unfold msalService.logout. service_cases. Qed.

Lemma exec_service_removeAccount pca a rt w :
  exec_st RNMSAL (msalService.removeAccount pca a) rt w
  = let '(h1, w1, c1, r) := exec RNMSAL (removeAccount pca a) (rt_heap rt) w in
    match r with
    | Resolved _ =>
        (logged rt h1 [line Console_log [Text "✅ Account removed"]],
         w1, c1, Resolved true)
    | Rejected e =>
        (logged rt h1 [line Console_error [Text "❌ Remove account failed:"; Caught e]],
         w1, c1, Resolved false)
    end.
Proof. unfold msalService.removeAccount. service_cases. Qed.

Lemma exec_init_flag pca h w :
  let '(h1, _, _, r) := exec RNMSAL (init pca) h w in
  is_resolved r = flag h1 pca.
Proof.
  destruct (h !! pca) as [o|] eqn:Hthis.
  - destruct (isInitialized o) eqn:Hflag.
    + rewrite (exec_init_ready RNMSAL _ _ _ _ Hthis Hflag).
      rewrite (flag_lookup _ _ _ Hthis), Hflag. reflexivity.
    + destruct (createPublicClientApplication RNMSAL (config o) w)
        as [w' [[]|e]] eqn:Hsetup.
      * rewrite (exec_init_resolved RNMSAL _ _ _ _ _ Hthis Hflag Hsetup).
        rewrite (flag_insert _ _ _ _ Hthis), Nat.eqb_refl, orb_true_r. reflexivity.
      * rewrite (exec_init_rejected RNMSAL _ _ _ _ _ _ Hthis Hflag Hsetup).
        rewrite (flag_lookup _ _ _ Hthis), Hflag. reflexivity.
  - destruct (exec_init_undefined RNMSAL _ _ w Hthis) as [e ->].
    unfold flag. rewrite Hthis. reflexivity.
Qed.

Lemma exec_guarded_uninitialized pca h w o (c : NativeCall) :
  h !! pca = Some o -> isInitialized o = false ->
  exec RNMSAL (let* _ := validateIsInitialized pca in await c) h w
  = (h, w, [], Rejected not_initialized_error).
Proof.
  intros Hthis Hflag. unfold exec.
  rewrite (guarded_uninitialized _ _ _ c Hthis Hflag). reflexivity.
Qed.

Lemma exec_signOut_uninitialized pca h w o (params : MSALSignoutParams) :
  h !! pca = Some o -> isInitialized o = false ->
  exec RNMSAL (signOut pca params) h w = (h, w, [], Rejected not_initialized_error).
Proof.
  intros Hthis Hflag. rewrite signOut_guarded.
  destruct OS;
    [ exact (exec_guarded_uninitialized _ _ w _ (Signout params) Hthis Hflag)
    | exact (exec_guarded_uninitialized _ _ w _
               (RemoveAccount (account params)) Hthis Hflag) .. ].
Qed.

Lemma exec_methods_uninitialized pca h w o
    (pi : MSALInteractiveParams) (ps : MSALSilentParams) (i : string)
    (a : MSALAccount) :
  h !! pca = Some o -> isInitialized o = false ->
  exec RNMSAL (acquireToken pca pi) h w = (h, w, [], Rejected not_initialized_error)
  /\ exec RNMSAL (acquireTokenSilent pca ps) h w
     = (h, w, [], Rejected not_initialized_error)
  /\ exec RNMSAL (getAccounts pca) h w = (h, w, [], Rejected not_initialized_error)
  /\ exec RNMSAL (getAccount pca i) h w = (h, w, [], Rejected not_initialized_error)
  /\ exec RNMSAL (removeAccount pca a) h w
     = (h, w, [], Rejected not_initialized_error).
Proof.
  intros Hthis Hflag. repeat split.
  - exact (exec_guarded_uninitialized _ _ w _ (AcquireToken pi) Hthis Hflag).
  - exact (exec_guarded_uninitialized _ _ w _ (AcquireTokenSilent ps) Hthis Hflag).
  - exact (exec_guarded_uninitialized _ _ w _ GetAccounts Hthis Hflag).
  - exact (exec_guarded_uninitialized _ _ w _ (GetAccount i) Hthis Hflag).
  - exact (exec_guarded_uninitialized _ _ w _ (RemoveAccount a) Hthis Hflag).
Qed.

Lemma exec_methods_ready pca h w o
    (pi : MSALInteractiveParams) (ps : MSALSilentParams) (i : string)
    (a : MSALAccount) :
  h !! pca = Some o -> isInitialized o = true ->
  exec RNMSAL (acquireToken pca pi) h w
  = (let '(w', r) := native_acquireToken RNMSAL pi w in (h, w', [AcquireToken pi], r))
  /\ exec RNMSAL (acquireTokenSilent pca ps) h w
     = (let '(w', r) := native_acquireTokenSilent RNMSAL ps w in
        (h, w', [AcquireTokenSilent ps], r))
  /\ exec RNMSAL (getAccounts pca) h w
     = (let '(w', r) := native_getAccounts RNMSAL w in (h, w', [GetAccounts], r))
  /\ exec RNMSAL (getAccount pca i) h w
     = (let '(w', r) := native_getAccount RNMSAL i w in (h, w', [GetAccount i], r))
  /\ exec RNMSAL (removeAccount pca a) h w
     = (let '(w', r) := native_removeAccount RNMSAL a w in
        (h, w', [RemoveAccount a], r)).
Proof.
  intros Hthis Hflag. repeat split.
  - exact (exec_guarded_ready RNMSAL _ _ w _ (AcquireToken pi) Hthis Hflag).
  - exact (exec_guarded_ready RNMSAL _ _ w _ (AcquireTokenSilent ps) Hthis Hflag).
  - exact (exec_guarded_ready RNMSAL _ _ w _ GetAccounts Hthis Hflag).
  - exact (exec_guarded_ready RNMSAL _ _ w _ (GetAccount i) Hthis Hflag).
  - exact (exec_guarded_ready RNMSAL _ _ w _ (RemoveAccount a) Hthis Hflag).
Qed.

Lemma exec_signOut_ready pca h w o (params : MSALSignoutParams) :
  h !! pca = Some o -> isInitialized o = true ->
  exec RNMSAL (signOut pca params) h w
  = match OS with
    | ios => let '(w', r) := signout RNMSAL params w in (h, w', [Signout params], r)
    | _ =>
        let '(w', r) := native_removeAccount RNMSAL (account params) w in
        (h, w', [RemoveAccount (account params)], r)
    end.
Proof.
  intros Hthis Hflag. rewrite signOut_guarded.
  destruct OS;
    [ exact (exec_guarded_ready RNMSAL _ _ w _ (Signout params) Hthis Hflag)
    | exact (exec_guarded_ready RNMSAL _ _ w _
               (RemoveAccount (account params)) Hthis Hflag) .. ].
Qed.

(** *** The service *)

(** X7. No function of the service rejects, in any state and whatever the
    native module does: each catches what the method of the class throws
    and resolves with a value. *)
Theorem service_never_rejects pca rt w
    (scopes : option (list string)) (a : MSALAccount) (i : string) :
  is_resolved (snd (exec_st RNMSAL (msalService.initializeMSAL pca) rt w)) = true
  /\ is_resolved (snd (exec_st RNMSAL (msalService.login pca scopes) rt w)) = true
  /\ is_resolved (snd (exec_st RNMSAL (msalService.loginSilent pca a scopes) rt w)) = true
  /\ is_resolved (snd (exec_st RNMSAL (msalService.getAccounts pca) rt w)) = true
  /\ is_resolved (snd (exec_st RNMSAL (msalService.getAccount pca i) rt w)) = true
  /\ is_resolved (snd (exec_st RNMSAL (msalService.logout pca a) rt w)) = true
  /\ is_resolved (snd (exec_st RNMSAL (msalService.removeAccount pca a) rt w)) = true.
Proof.
  rewrite exec_initializeMSAL, exec_login, exec_loginSilent,
    exec_service_getAccounts, exec_service_getAccount, exec_logout,
    exec_service_removeAccount.
  repeat split;
    match goal with
    | |- context [exec RNMSAL ?m ?h ?w] =>
        destruct (exec RNMSAL m h w) as [[[? ?] ?] [?|?]]
    end; try reflexivity;
    match goal with |- context [match ?x with Some _ => _ | None => _ end] =>
      destruct x end; reflexivity.
Qed.

(** X8. [initializeMSAL] resolves with the flag of the instance: [true]
    exactly when the instance is initialized once it has run. *)
Theorem initializeMSAL_reports_flag pca rt w :
  let '(rt1, _, _, r) := exec_st RNMSAL (msalService.initializeMSAL pca) rt w in
  r = Resolved (flag (rt_heap rt1) pca).
Proof.
  rewrite exec_initializeMSAL.
  pose proof (exec_init_flag pca (rt_heap rt) w) as Hflag.
  destruct (exec RNMSAL (init pca) (rt_heap rt) w) as [[[h1 w1] c1] [v|e]];
    cbn in Hflag |- *; rewrite <- Hflag; reflexivity.
Qed.

(** X9. [removeAccount] and [logout] of the service resolve with [true]
    whenever the native call resolves, whatever boolean it resolves with:
    the answer of the native module is dropped. [logout] sends
    [signoutFromBrowser: true]; off iOS only the account reaches the native
    module. *)
Theorem service_drops_native_boolean h0 w0 mid pca rt w (a : MSALAccount) w1 (b : bool) :
  after_init RNMSAL pca h0 w0 mid (rt_heap rt) w ->
  (native_removeAccount RNMSAL a w = (w1, Resolved b) ->
   exec_st RNMSAL (msalService.removeAccount pca a) rt w
   = (logged rt (rt_heap rt) [line Console_log [Text "✅ Account removed"]],
      w1, [RemoveAccount a], Resolved true))
  /\ (OS <> ios -> native_removeAccount RNMSAL a w = (w1, Resolved b) ->
      exec_st RNMSAL (msalService.logout pca a) rt w
      = (logged rt (rt_heap rt) [line Console_log [Text "✅ Logout successful"]],
         w1, [RemoveAccount a], Resolved true))
  /\ (OS = ios -> signout RNMSAL (signout_params a true) w = (w1, Resolved b) ->
      exec_st RNMSAL (msalService.logout pca a) rt w
      = (logged rt (rt_heap rt) [line Console_log [Text "✅ Logout successful"]],
         w1, [Signout (signout_params a true)], Resolved true)).
Proof.
  intros Hafter.
  destruct (after_init_ready RNMSAL _ _ _ _ _ _ Hafter) as (o & Hthis & Hflag).
  pose proof (exec_signOut_ready pca _ w _ (signout_params a true) Hthis Hflag) as Hout.
  assert (exec RNMSAL (removeAccount pca a) (rt_heap rt) w
          = (let '(w', r) := native_removeAccount RNMSAL a w in
             (rt_heap rt, w', [RemoveAccount a], r))) as Hrm
    by exact (exec_guarded_ready RNMSAL _ _ w _ (RemoveAccount a) Hthis Hflag).
  repeat split.
  - intros Hnative. rewrite exec_service_removeAccount, Hrm, Hnative. reflexivity.
  - intros Hos Hnative. rewrite exec_logout, Hout.
    destruct OS; try congruence; rewrite signout_params_account, Hnative; reflexivity.
  - intros Hos Hnative. rewrite exec_logout, Hout, Hos, Hnative. reflexivity.
Qed.

(** X10. While the instance of the service is not initialized, its
    functions make no native call and leave the heap as it is; the guard's
    rejection goes to [console.error] and the caller gets the value of the
    failure case: no result, no accounts, no account, [false]. *)
Theorem service_before_init pca rt w o
    (scopes : option (list string)) (a : MSALAccount) (i : string) :
  rt_heap rt !! pca = Some o -> isInitialized o = false ->
  exec_st RNMSAL (msalService.login pca scopes) rt w
  = swallowed rt w "❌ Login failed:" None
  /\ exec_st RNMSAL (msalService.loginSilent pca a scopes) rt w
     = swallowed rt w
         "❌ Silent login failed (user may need to login interactively):" None
  /\ exec_st RNMSAL (msalService.getAccounts pca) rt w
     = swallowed rt w "❌ Get accounts failed:" []
  /\ exec_st RNMSAL (msalService.getAccount pca i) rt w
     = swallowed rt w "❌ Get account failed:" None
  /\ exec_st RNMSAL (msalService.logout pca a) rt w
     = swallowed rt w "❌ Logout failed:" false
  /\ exec_st RNMSAL (msalService.removeAccount pca a) rt w
     = swallowed rt w "❌ Remove account failed:" false.
Proof.
  intros Hthis Hflag. unfold swallowed.
  rewrite exec_login, exec_loginSilent, exec_service_getAccounts,
    exec_service_getAccount, exec_logout, exec_service_removeAccount.
  rewrite (exec_signOut_uninitialized _ _ w _ _ Hthis Hflag).
  destruct (exec_methods_uninitialized pca (rt_heap rt) w o
              (interactive_params (msalService.scopes_or_default scopes))
              (silent_params a (msalService.scopes_or_default scopes) false)
              i a Hthis Hflag) as (H1 & H2 & H3 & H4 & H5).
  rewrite H1, H2, H3, H4, H5. repeat split.
Qed.

(** X11. Once the instance is initialized, [login] and [loginSilent] make
    the one native call, with the scopes given or [user.read] when none are
    given and, for [loginSilent], [forceRefresh: false]. They resolve with
    the result of the native module when it resolves; when it rejects they
    resolve with no result, as for a flow that ended without one. *)
Theorem service_login_result h0 w0 mid pca rt w
    (scopes : option (list string)) (a : MSALAccount) :
  after_init RNMSAL pca h0 w0 mid (rt_heap rt) w ->
  let pi := interactive_params (msalService.scopes_or_default scopes) in
  let ps := silent_params a (msalService.scopes_or_default scopes) false in
  let result (r : Settled (option MSALResult)) :=
    match r with Resolved res => res | Rejected _ => None end in
  (let '(_, w1, calls, r) := exec_st RNMSAL (msalService.login pca scopes) rt w in
   w1 = fst (native_acquireToken RNMSAL pi w)
   /\ calls = [AcquireToken pi]
   /\ r = Resolved (result (snd (native_acquireToken RNMSAL pi w))))
  /\ (let '(_, w1, calls, r) :=
        exec_st RNMSAL (msalService.loginSilent pca a scopes) rt w in
      w1 = fst (native_acquireTokenSilent RNMSAL ps w)
      /\ calls = [AcquireTokenSilent ps]
      /\ r = Resolved (result (snd (native_acquireTokenSilent RNMSAL ps w)))).
Proof.
  intros Hafter pi ps result.
  destruct (after_init_ready RNMSAL _ _ _ _ _ _ Hafter) as (o & Hthis & Hflag).
  destruct (exec_methods_ready pca _ w _ pi ps "" a Hthis Hflag) as (Hi & Hs & _).
  rewrite exec_login, exec_loginSilent. fold pi ps. rewrite Hi, Hs.
  destruct (native_acquireToken RNMSAL pi w) as [wi [[ri|]|ei]];
    destruct (native_acquireTokenSilent RNMSAL ps w) as [ws [[rs|]|es]];
    cbn; repeat split.
Qed.

(** X12. Once the instance is initialized, [getAccounts] and [getAccount]
    of the service resolve with what the native module resolves with, and
    with no accounts, no account, when it rejects. *)
Theorem service_accounts_result h0 w0 mid pca rt w (i : string) :
  after_init RNMSAL pca h0 w0 mid (rt_heap rt) w ->
  snd (exec_st RNMSAL (msalService.getAccounts pca) rt w)
  = Resolved (match snd (native_getAccounts RNMSAL w) with
              | Resolved accounts => accounts
              | Rejected _ => []
              end)
  /\ snd (exec_st RNMSAL (msalService.getAccount pca i) rt w)
     = Resolved (match snd (native_getAccount RNMSAL i w) with
                 | Resolved a => a
                 | Rejected _ => None
                 end).
Proof.
  intros Hafter.
  destruct (after_init_ready RNMSAL _ _ _ _ _ _ Hafter) as (o & Hthis & Hflag).
  assert (exec RNMSAL (getAccounts pca) (rt_heap rt) w
          = (let '(w', r) := native_getAccounts RNMSAL w in
             (rt_heap rt, w', [GetAccounts], r))) as Hl
    by exact (exec_guarded_ready RNMSAL _ _ w _ GetAccounts Hthis Hflag).
  assert (exec RNMSAL (getAccount pca i) (rt_heap rt) w
          = (let '(w', r) := native_getAccount RNMSAL i w in
             (rt_heap rt, w', [GetAccount i], r))) as Hg
    by exact (exec_guarded_ready RNMSAL _ _ w _ (GetAccount i) Hthis Hflag).
  rewrite exec_service_getAccounts, exec_service_getAccount, Hl, Hg.
  destruct (native_getAccounts RNMSAL w) as [wl [l|el]];
    destruct (native_getAccount RNMSAL i w) as [wg [g|eg]]; split; reflexivity.
Qed.

(** *** The context *)

Implicit Types (st : AuthContext.State) (k : AuthContext.Hooks).

Lemma exec_on_runtime {A} (m : St Runtime A) st w :
  exec_st RNMSAL (AuthContext.on_runtime m) st w
  = let '(rt1, w1, c1, r) := exec_st RNMSAL m (AuthContext.runtime st) w in
    ({| AuthContext.runtime := rt1; AuthContext.hooks := AuthContext.hooks st |},
     w1, c1, r).
Proof. unfold AuthContext.on_runtime. rewrite exec_st_zoom. reflexivity. Qed.

Ltac context_cases :=
  repeat (rewrite ?exec_st_bind, ?exec_st_finally, ?exec_st_try, ?exec_on_runtime;
          cbn [exec_st AuthContext.setIsLoading AuthContext.setIsInitialized
               AuthContext.setUser AuthContext.setAccessToken
               AuthContext.set_hooks st_modify st_ret console run
               AuthContext.runtime AuthContext.hooks]);
  rewrite ?exec_initializeMSAL, ?exec_login, ?exec_loginSilent,
    ?exec_service_getAccounts, ?exec_logout.

Ltac context_done :=
  cbn; unfold logged; cbn; rewrite ?app_nil_r, <- ?app_assoc; reflexivity.

Lemma exec_handleLogout pca (u : MSALAccount) st w :
  exec_st RNMSAL (AuthContext.handleLogout pca (Some u)) st w
  = let '(h1, w1, c1, r) :=
      exec RNMSAL (signOut pca (signout_params u true))
        (rt_heap (AuthContext.runtime st)) w in
    let k := AuthContext.hooks st in
    match r with
    | Resolved _ =>
        ({| AuthContext.runtime :=
              logged (AuthContext.runtime st) h1
                [line Console_log [Text "✅ Logout successful"]];
            AuthContext.hooks :=
              {| AuthContext.hook_isInitialized := AuthContext.hook_isInitialized k;
                 AuthContext.hook_isLoading := false;
                 AuthContext.hook_user := None;
                 AuthContext.hook_accessToken := None |} |},
         w1, c1, Resolved true)
    | Rejected e =>
        ({| AuthContext.runtime :=
              logged (AuthContext.runtime st) h1
                [line Console_error [Text "❌ Logout failed:"; Caught e]];
            AuthContext.hooks :=
              {| AuthContext.hook_isInitialized := AuthContext.hook_isInitialized k;
                 AuthContext.hook_isLoading := false;
                 AuthContext.hook_user := AuthContext.hook_user k;
                 AuthContext.hook_accessToken := AuthContext.hook_accessToken k |} |},
         w1, c1, Resolved false)
    end.
Proof.
  unfold AuthContext.handleLogout. context_cases.
  destruct (exec RNMSAL (signOut pca (signout_params u true)) _ w)
    as [[[h1 w1] c1] [b|e]]; context_done.
Qed.

Lemma exec_handleRefreshToken pca (u : MSALAccount) scopes st w :
  exec_st RNMSAL (AuthContext.handleRefreshToken pca (Some u) scopes) st w
  = let '(h1, w1, c1, r) :=
      exec RNMSAL
        (acquireTokenSilent pca
           (silent_params u (msalService.scopes_or_default scopes) false))
        (rt_heap (AuthContext.runtime st)) w in
    let k := AuthContext.hooks st in
    match r with
    | Resolved (Some res) =>
        ({| AuthContext.runtime :=
              logged (AuthContext.runtime st) h1
                [line Console_log [Text "✅ Silent login successful"]];
            AuthContext.hooks :=
              {| AuthContext.hook_isInitialized := AuthContext.hook_isInitialized k;
                 AuthContext.hook_isLoading := AuthContext.hook_isLoading k;
                 AuthContext.hook_user := AuthContext.hook_user k;
                 AuthContext.hook_accessToken := Some (result_accessToken res) |} |},
         w1, c1, Resolved true)
    | Resolved None =>
        ({| AuthContext.runtime := logged (AuthContext.runtime st) h1 [];
            AuthContext.hooks := k |},
         w1, c1, Resolved false)
    | Rejected e =>
        ({| AuthContext.runtime :=
              logged (AuthContext.runtime st) h1
                [line Console_error
                   [Text "❌ Silent login failed (user may need to login interactively):";
                    Caught e]];
            AuthContext.hooks := k |},
         w1, c1, Resolved false)
    end.
Proof.
  unfold AuthContext.handleRefreshToken. context_cases.
  destruct scopes as [l|]; cbn [msalService.scopes_or_default];
  match goal with
  | |- context [exec RNMSAL ?m ?h w] =>
      destruct (exec RNMSAL m h w) as [[[h1 w1] c1] [[res|]|e]]
  end; context_done.
Qed.

Lemma exec_handleLogin pca scopes st w :
  exec_st RNMSAL (AuthContext.handleLogin pca scopes) st w
  = let '(h1, w1, c1, r) :=
      exec RNMSAL
        (acquireToken pca (interactive_params (msalService.scopes_or_default scopes)))
        (rt_heap (AuthContext.runtime st)) w in
    let k := AuthContext.hooks st in
    match r with
    | Resolved (Some res) =>
        ({| AuthContext.runtime :=
              logged (AuthContext.runtime st) h1
                [line Console_log [Text "✅ Login successful"];
                 line Console_log [Text "User:"; Text (username (result_account res))]];
            AuthContext.hooks :=
              {| AuthContext.hook_isInitialized := AuthContext.hook_isInitialized k;
                 AuthContext.hook_isLoading := false;
                 AuthContext.hook_user := Some (result_account res);
                 AuthContext.hook_accessToken := Some (result_accessToken res) |} |},
         w1, c1, Resolved (Some res))
    | Resolved None =>
        ({| AuthContext.runtime := logged (AuthContext.runtime st) h1 [];
            AuthContext.hooks :=
              {| AuthContext.hook_isInitialized := AuthContext.hook_isInitialized k;
                 AuthContext.hook_isLoading := false;
                 AuthContext.hook_user := AuthContext.hook_user k;
                 AuthContext.hook_accessToken := AuthContext.hook_accessToken k |} |},
         w1, c1, Resolved None)
    | Rejected e =>
        ({| AuthContext.runtime :=
              logged (AuthContext.runtime st) h1
                [line Console_error [Text "❌ Login failed:"; Caught e]];
            AuthContext.hooks :=
              {| AuthContext.hook_isInitialized := AuthContext.hook_isInitialized k;
                 AuthContext.hook_isLoading := false;
                 AuthContext.hook_user := AuthContext.hook_user k;
                 AuthContext.hook_accessToken := AuthContext.hook_accessToken k |} |},
         w1, c1, Resolved None)
    end.
Proof.
  unfold AuthContext.handleLogin. context_cases.
  destruct scopes as [l|]; cbn [msalService.scopes_or_default];
  match goal with
  | |- context [exec RNMSAL ?m ?h w] =>
      destruct (exec RNMSAL m h w) as [[[h1 w1] c1] [[res|]|e]]
  end; context_done.
Qed.

Lemma exec_initAuth pca st w :
  exec_st RNMSAL (AuthContext.initAuth pca) st w
  = let '(h1, w1, c1, r) := exec RNMSAL (init pca) (rt_heap (AuthContext.runtime st)) w in
    let k := AuthContext.hooks st in
    let after b u :=
      {| AuthContext.hook_isInitialized := b;
         AuthContext.hook_isLoading := false;
         AuthContext.hook_user := u;
         AuthContext.hook_accessToken := AuthContext.hook_accessToken k |} in
    match r with
    | Rejected e =>
        ({| AuthContext.runtime :=
              logged (AuthContext.runtime st) h1
                [line Console_error [Text "❌ MSAL initialization failed:"; Caught e]];
            AuthContext.hooks := after false (AuthContext.hook_user k) |},
         w1, c1, Resolved tt)
    | Resolved _ =>
        let '(h2, w2, c2, r2) := exec RNMSAL (getAccounts pca) h1 w1 in
        let ok := line Console_log [Text "✅ MSAL initialized successfully"] in
        match r2 with
        | Resolved accounts =>
            let found :=
              line Console_log
                [Text ("✅ Found " +:+ number (List.length accounts) +:+ " account(s)")] in
            match accounts with
            | first :: _ =>
                ({| AuthContext.runtime :=
                      logged (AuthContext.runtime st) h2
                        [ok; found;
                         line Console_log
                           [Text "Existing user found:"; Text (username first)]];
                    AuthContext.hooks := after true (Some first) |},
                 w2, (c1 ++ c2)%list, Resolved tt)
            | [] =>
                ({| AuthContext.runtime :=
                      logged (AuthContext.runtime st) h2 [ok; found];
                    AuthContext.hooks := after true (AuthContext.hook_user k) |},
                 w2, (c1 ++ c2)%list, Resolved tt)
            end
        | Rejected e =>
            ({| AuthContext.runtime :=
                  logged (AuthContext.runtime st) h2
                    [ok; line Console_error [Text "❌ Get accounts failed:"; Caught e]];
                AuthContext.hooks := after true (AuthContext.hook_user k) |},
             w2, (c1 ++ c2)%list, Resolved tt)
        end
    end.
Proof.
  unfold AuthContext.initAuth. context_cases.
  destruct (exec RNMSAL (init pca) _ w) as [[[h1 w1] c1] [v|e]];
    [|context_done].
  context_cases. cbn [logged rt_heap].
  destruct (exec RNMSAL (getAccounts pca) h1 w1) as [[[h2 w2] c2] [[|first rest]|e]];
    context_done.
Qed.

Lemma exec_getAccounts_heap pca h w :
  let '(h1, _, _, _) := exec RNMSAL (getAccounts pca) h w in h1 = h.
Proof.
  destruct (validate_cases pca h) as [r Hv].
  unfold exec, getAccounts, bind. rewrite Hv. destruct r as [[]|e]; cbn -[handle].
  - destruct (handle RNMSAL GetAccounts w) as [w1 r]. reflexivity.
  - reflexivity.
Qed.

Lemma exec_handleLogout_nobody pca st w :
  exec_st RNMSAL (AuthContext.handleLogout pca None) st w
  = ({| AuthContext.runtime := AuthContext.runtime st;
        AuthContext.hooks :=
          {| AuthContext.hook_isInitialized :=
               AuthContext.hook_isInitialized (AuthContext.hooks st);
             AuthContext.hook_isLoading := false;
             AuthContext.hook_user := AuthContext.hook_user (AuthContext.hooks st);
             AuthContext.hook_accessToken :=
               AuthContext.hook_accessToken (AuthContext.hooks st) |} |},
     w, [], Resolved false).
Proof. unfold AuthContext.handleLogout. context_cases. reflexivity. Qed.

Lemma exec_handleRefreshToken_nobody pca scopes st w :
  exec_st RNMSAL (AuthContext.handleRefreshToken pca None scopes) st w
  = ({| AuthContext.runtime :=
          logged (AuthContext.runtime st) (rt_heap (AuthContext.runtime st))
            [line Console_warn [Text "Cannot refresh token - no user logged in"]];
        AuthContext.hooks := AuthContext.hooks st |},
     w, [], Resolved false).
Proof. unfold AuthContext.handleRefreshToken. context_cases. reflexivity. Qed.

(** X13. The effect and the handlers of the context never reject, and
    [isLoading] is false once [initAuth], [login] or [logout] has run,
    however the call ended; [refreshToken] leaves [isLoading] as it is. *)
Theorem context_handlers_settle pca st w
    (scopes : option (list string)) (user : option MSALAccount) :
  (let '(st1, _, _, r) := exec_st RNMSAL (AuthContext.initAuth pca) st w in
   is_resolved r = true
   /\ AuthContext.hook_isLoading (AuthContext.hooks st1) = false)
  /\ (let '(st1, _, _, r) := exec_st RNMSAL (AuthContext.handleLogin pca scopes) st w in
      is_resolved r = true
      /\ AuthContext.hook_isLoading (AuthContext.hooks st1) = false)
  /\ (let '(st1, _, _, r) := exec_st RNMSAL (AuthContext.handleLogout pca user) st w in
      is_resolved r = true
      /\ AuthContext.hook_isLoading (AuthContext.hooks st1) = false)
  /\ (let '(st1, _, _, r) :=
        exec_st RNMSAL (AuthContext.handleRefreshToken pca user scopes) st w in
      is_resolved r = true
      /\ AuthContext.hook_isLoading (AuthContext.hooks st1)
         = AuthContext.hook_isLoading (AuthContext.hooks st)).
Proof.
  split; [|split; [|split]].
  - rewrite exec_initAuth.
    destruct (exec RNMSAL (init pca) _ w) as [[[h1 w1] c1] [v|e]]; [|split; reflexivity].
    destruct (exec RNMSAL (getAccounts pca) h1 w1) as [[[h2 w2] c2] [[|first rest]|e]];
      split; reflexivity.
  - rewrite exec_handleLogin.
    destruct (exec RNMSAL _ _ w) as [[[h1 w1] c1] [[res|]|e]]; split; reflexivity.
  - destruct user as [u|].
    + rewrite exec_handleLogout.
      destruct (exec RNMSAL _ _ w) as [[[h1 w1] c1] [b|e]]; split; reflexivity.
    + rewrite exec_handleLogout_nobody. split; reflexivity.
  - destruct user as [u|].
    + rewrite exec_handleRefreshToken.
      destruct (exec RNMSAL _ _ w) as [[[h1 w1] c1] [[res|]|e]]; split; reflexivity.
    + rewrite exec_handleRefreshToken_nobody. split; reflexivity.
Qed.

(** X14. After [initAuth], [isInitialized] of the context is the flag of
    the instance of the service, whatever state it ran in and however the
    native module answered. *)
Theorem initAuth_mirrors_flag pca st w :
  let '(st1, _, _, _) := exec_st RNMSAL (AuthContext.initAuth pca) st w in
  AuthContext.hook_isInitialized (AuthContext.hooks st1)
  = flag (rt_heap (AuthContext.runtime st1)) pca.
Proof.
  rewrite exec_initAuth.
  pose proof (exec_init_flag pca (rt_heap (AuthContext.runtime st)) w) as Hflag.
  destruct (exec RNMSAL (init pca) _ w) as [[[h1 w1] c1] [v|e]]; cbn in Hflag.
  - pose proof (exec_getAccounts_heap pca h1 w1) as Hheap.
    destruct (exec RNMSAL (getAccounts pca) h1 w1) as [[[h2 w2] c2] [[|first rest]|e]];
      subst h2; cbn; congruence.
  - cbn. congruence.
Qed.

(** X15. When [init] resolves and the native module then resolves
    [getAccounts] with a list, [initAuth] makes the first account of the
    list the user, and keeps the user there was when the list is empty; the
    access token is not touched. *)
Theorem initAuth_restores_user pca st w h1 w1 c1 v w2
    (accounts : list MSALAccount) :
  exec RNMSAL (init pca) (rt_heap (AuthContext.runtime st)) w
  = (h1, w1, c1, Resolved v) ->
  native_getAccounts RNMSAL w1 = (w2, Resolved accounts) ->
  let '(st1, w', calls, _) := exec_st RNMSAL (AuthContext.initAuth pca) st w in
  AuthContext.hooks st1
  = {| AuthContext.hook_isInitialized := true;
       AuthContext.hook_isLoading := false;
       AuthContext.hook_user :=
         match accounts with
         | first :: _ => Some first
         | [] => AuthContext.hook_user (AuthContext.hooks st)
         end;
       AuthContext.hook_accessToken :=
         AuthContext.hook_accessToken (AuthContext.hooks st) |}
  /\ w' = w2 /\ calls = (c1 ++ [GetAccounts])%list.
Proof.
  intros Hinit Hnative. rewrite exec_initAuth, Hinit.
  pose proof (exec_init_flag pca (rt_heap (AuthContext.runtime st)) w) as Hflag.
  rewrite Hinit in Hflag. cbn in Hflag. symmetry in Hflag. unfold flag in Hflag.
  destruct (h1 !! pca) as [o|] eqn:Hthis; [|discriminate Hflag].
  assert (exec RNMSAL (getAccounts pca) h1 w1
          = (let '(w', r) := native_getAccounts RNMSAL w1 in
             (h1, w', [GetAccounts], r))) as Hl
    by exact (exec_guarded_ready RNMSAL _ _ w1 _ GetAccounts Hthis Hflag).
  rewrite Hl, Hnative. destruct accounts as [|first rest]; repeat split.
Qed.


(** X17. Off iOS, once the instance is initialized, [logout] of the
    context with a user clears the user and the token and resolves with
    [true] whenever the native [removeAccount] resolves, also when it
    resolves with [false]. *)
Theorem logout_clears_whatever_native_says h0 w0 mid pca st w
    (u : MSALAccount) w1 (b : bool) :
  after_init RNMSAL pca h0 w0 mid (rt_heap (AuthContext.runtime st)) w ->
  OS <> ios ->
  native_removeAccount RNMSAL u w = (w1, Resolved b) ->
  let '(st1, w', calls, r) :=
    exec_st RNMSAL (AuthContext.handleLogout pca (Some u)) st w in
  r = Resolved true /\ w' = w1 /\ calls = [RemoveAccount u]
  /\ AuthContext.hooks st1
     = {| AuthContext.hook_isInitialized :=
            AuthContext.hook_isInitialized (AuthContext.hooks st);
          AuthContext.hook_isLoading := false;
          AuthContext.hook_user := None;
          AuthContext.hook_accessToken := None |}.
Proof.
  intros Hafter Hos Hnative. rewrite exec_handleLogout.
  destruct (after_init_ready RNMSAL _ _ _ _ _ _ Hafter) as (o & Hthis & Hflag).
  rewrite (exec_signOut_ready pca _ w _ (signout_params u true) Hthis Hflag).
  destruct OS; try congruence; rewrite signout_params_account, Hnative;
    repeat split.
Qed.

(** X18. With no user, [logout] and [refreshToken] of the context resolve
    with [false] without calling the service: no native call, the heap and
    the native state as they were, no hook changed but [isLoading], which
    [logout] leaves false. *)
Theorem nobody_logged_in pca (scopes : option (list string)) st w :
  (let '(st1, w', calls, r) :=
     exec_st RNMSAL (AuthContext.handleLogout pca None) st w in
   r = Resolved false /\ w' = w /\ calls = []
   /\ AuthContext.runtime st1 = AuthContext.runtime st
   /\ AuthContext.hook_user (AuthContext.hooks st1)
      = AuthContext.hook_user (AuthContext.hooks st)
   /\ AuthContext.hook_accessToken (AuthContext.hooks st1)
      = AuthContext.hook_accessToken (AuthContext.hooks st)
   /\ AuthContext.hook_isLoading (AuthContext.hooks st1) = false)
  /\ (let '(st1, w', calls, r) :=
        exec_st RNMSAL (AuthContext.handleRefreshToken pca None scopes) st w in
      r = Resolved false /\ w' = w /\ calls = []
      /\ rt_heap (AuthContext.runtime st1) = rt_heap (AuthContext.runtime st)
      /\ AuthContext.hooks st1 = AuthContext.hooks st).
Proof.
  rewrite exec_handleLogout_nobody, exec_handleRefreshToken_nobody.
  repeat split.
Qed.

(** X19. Once the instance is initialized, [login] of the context makes the
    account and the access token of the result the user and the token when
    the native module resolves with a result; when it resolves with none or
    rejects, [login] resolves with none and the user and the token stay. *)
Theorem login_sets_user h0 w0 mid pca st w (scopes : option (list string)) :
  after_init RNMSAL pca h0 w0 mid (rt_heap (AuthContext.runtime st)) w ->
  let pi := interactive_params (msalService.scopes_or_default scopes) in
  let '(st1, _, calls, r) := exec_st RNMSAL (AuthContext.handleLogin pca scopes) st w in
  calls = [AcquireToken pi]
  /\ match snd (native_acquireToken RNMSAL pi w) with
     | Resolved (Some res) =>
         r = Resolved (Some res)
         /\ AuthContext.hook_user (AuthContext.hooks st1) = Some (result_account res)
         /\ AuthContext.hook_accessToken (AuthContext.hooks st1)
            = Some (result_accessToken res)
     | _ =>
         r = Resolved None
         /\ AuthContext.hook_user (AuthContext.hooks st1)
            = AuthContext.hook_user (AuthContext.hooks st)
         /\ AuthContext.hook_accessToken (AuthContext.hooks st1)
            = AuthContext.hook_accessToken (AuthContext.hooks st)
     end.
Proof.
  intros Hafter pi.
  destruct (after_init_ready RNMSAL _ _ _ _ _ _ Hafter) as (o & Hthis & Hflag).
  assert (exec RNMSAL (acquireToken pca pi) (rt_heap (AuthContext.runtime st)) w
          = (let '(w', r) := native_acquireToken RNMSAL pi w in
             (rt_heap (AuthContext.runtime st), w', [AcquireToken pi], r))) as Hi
    by exact (exec_guarded_ready RNMSAL _ _ w _ (AcquireToken pi) Hthis Hflag).
  rewrite exec_handleLogin. fold pi. rewrite Hi.
  destruct (native_acquireToken RNMSAL pi w) as [w1 [[res|]|e]]; cbn; repeat split.
Qed.

End AppProperties.

(** ** The properties of the service and the context on the concrete
    application *)

#[local] Existing Instance DemoApp.app.

(** The class: the state after a successful [init] and a silent request
    that is rejected, as above. *)
Lemma account_methods_passthrough_witness :
  exec Demo.RNMSAL (getAccounts 0) Demo.ready_heap (2, [])
  = (Demo.ready_heap, (2, []), [GetAccounts], Resolved [])
  /\ exec Demo.RNMSAL (getAccount 0 "u1") Demo.ready_heap (2, [])
     = (Demo.ready_heap, (2, []), [GetAccount "u1"], Resolved None)
  /\ exec Demo.RNMSAL (removeAccount 0 "u1") Demo.ready_heap (2, [])
     = (Demo.ready_heap, (2, []), [RemoveAccount "u1"], Resolved false).
Proof.
  exact (account_methods_passthrough (P := Demo.on_android) Demo.RNMSAL
           _ _ _ _ _ 0 "u1" "u1" demo_after_init).
Defined.

Lemma init_uses_constructor_config_witness :
  st_calls (exec_call (P := Demo.on_android) Demo.RNMSAL 0 OInit (snd Demo.pca) (0, []))
  = [CreatePublicClientApplication "abc"].
Proof.
  exact (init_uses_constructor_config (P := Demo.on_android) Demo.RNMSAL
           "abc" [] (0, []) [(0, OInit)] 0 (snd Demo.pca) [] _ [] eq_refl eq_refl).
Defined.

(** Two instances; the first is initialized, the second is not. *)
Lemma instances_independent_witness :
  let h := [Demo.fresh; Demo.fresh] in
  let '(h1, w1) :=
    final h (1, [])
      (exec_script (P := Demo.on_android) Demo.RNMSAL
         [(0, OInit); (0, OGetAccounts)] h (1, [])) in
  h1 !! 1 = Some Demo.fresh
  /\ (isInitialized Demo.fresh = false ->
      st_calls (exec_call (P := Demo.on_android) Demo.RNMSAL 1 OInit h1 w1)
      = [CreatePublicClientApplication "abc"]).
Proof.
  apply (instances_independent (P := Demo.on_android) Demo.RNMSAL
           [(0, OInit); (0, OGetAccounts)] [Demo.fresh; Demo.fresh] (1, []) 1
           Demo.fresh).
  - reflexivity.
  - repeat constructor; discriminate.
Defined.

(** A silent request the native module rejects: one call, the heap kept. *)
Lemma at_most_one_native_call_witness :
  List.length
    (st_calls (exec_call (P := Demo.on_android) Demo.RNMSAL 0
                 (OAcquireTokenSilent ("u1", [])) Demo.ready_heap (2, []))) <= 1
  /\ st_heap (exec_call (P := Demo.on_android) Demo.RNMSAL 0
                (OAcquireTokenSilent ("u1", [])) Demo.ready_heap (2, []))
     = Demo.ready_heap.
Proof.
  split.
  - exact (proj1 (at_most_one_native_call (P := Demo.on_android) Demo.RNMSAL 0
                    (OAcquireTokenSilent ("u1", [])) Demo.ready_heap (2, []))).
  - exact (proj2 (at_most_one_native_call (P := Demo.on_android) Demo.RNMSAL 0
                    (OAcquireTokenSilent ("u1", [])) Demo.ready_heap (2, []))
             eq_refl).
Defined.

Lemma init_rejection_is_new_witness :
  exists e,
    st_result (exec_call (P := Demo.on_android) Demo.RNMSAL 0 OInit (snd Demo.pca) (0, []))
    = Rejected (ThrownError e)
    /\ error_class e = "Error"
    /\ ThrownError e <> ThrownError (mkJsError "Error" "no network").
Proof.
  apply (init_rejection_is_new (P := Demo.on_android) Demo.RNMSAL 0
           (snd Demo.pca) (0, []) Demo.fresh (1, []));
    reflexivity.
Defined.

(** The service: its instance initialized, no account signed in. *)
Lemma service_after_init :
  after_init (P := Demo.on_android) Demo.RNMSAL 0
    (snd (msalService.load [])) (1, []) [] (rt_heap DemoApp.ready) (2, []).
Proof. split; reflexivity. Defined.

Lemma service_after_init_ios :
  after_init (P := Demo.on_ios) Demo.RNMSAL 0
    (snd (msalService.load [])) (1, []) [] (rt_heap DemoApp.ready) (2, []).
Proof. split; reflexivity. Defined.

(** The native module answers [false]: "u1" is not signed in. *)
Lemma service_drops_native_boolean_witness :
  exec_st Demo.RNMSAL (msalService.removeAccount 0 "u1") DemoApp.ready (2, [])
  = (logged DemoApp.ready (rt_heap DemoApp.ready)
       [line Console_log [Text "✅ Account removed"]],
     (2, []), [RemoveAccount "u1"], Resolved true)
  /\ exec_st Demo.RNMSAL (msalService.logout (P := Demo.on_android) 0 "u1")
       DemoApp.ready (2, [])
     = (logged DemoApp.ready (rt_heap DemoApp.ready)
          [line Console_log [Text "✅ Logout successful"]],
        (2, []), [RemoveAccount "u1"], Resolved true)
  /\ exec_st Demo.RNMSAL (msalService.logout (P := Demo.on_ios) 0 "u1")
       DemoApp.ready (2, [])
     = (logged DemoApp.ready (rt_heap DemoApp.ready)
          [line Console_log [Text "✅ Logout successful"]],
        (2, []), [Signout ("u1", true)], Resolved true).
Proof.
  split; [|split].
  - apply (proj1 (service_drops_native_boolean (P := Demo.on_android) Demo.RNMSAL
                    _ _ _ 0 DemoApp.ready (2, []) "u1" (2, []) false
                    service_after_init)).
    reflexivity.
  - apply (proj1 (proj2 (service_drops_native_boolean (P := Demo.on_android)
                           Demo.RNMSAL _ _ _ 0 DemoApp.ready (2, []) "u1" (2, [])
                           false service_after_init))).
    + discriminate.
    + reflexivity.
  - exact (proj2 (proj2 (service_drops_native_boolean (P := Demo.on_ios)
                           Demo.RNMSAL _ _ _ 0 DemoApp.ready (2, []) "u1" (2, [])
                           true service_after_init_ios)) eq_refl eq_refl).
Defined.

Lemma service_before_init_witness :
  exec_st Demo.RNMSAL (msalService.login 0 None) DemoApp.loaded (0, [])
  = swallowed DemoApp.loaded (0, []) "❌ Login failed:" None
  /\ exec_st Demo.RNMSAL (msalService.loginSilent 0 "u1" None) DemoApp.loaded (0, [])
     = swallowed DemoApp.loaded (0, [])
         "❌ Silent login failed (user may need to login interactively):" None
  /\ exec_st Demo.RNMSAL (msalService.getAccounts 0) DemoApp.loaded (0, [])
     = swallowed DemoApp.loaded (0, []) "❌ Get accounts failed:" []
  /\ exec_st Demo.RNMSAL (msalService.getAccount 0 "u1") DemoApp.loaded (0, [])
     = swallowed DemoApp.loaded (0, []) "❌ Get account failed:" None
  /\ exec_st Demo.RNMSAL (msalService.logout (P := Demo.on_android) 0 "u1")
       DemoApp.loaded (0, [])
     = swallowed DemoApp.loaded (0, []) "❌ Logout failed:" false
  /\ exec_st Demo.RNMSAL (msalService.removeAccount 0 "u1") DemoApp.loaded (0, [])
     = swallowed DemoApp.loaded (0, []) "❌ Remove account failed:" false.
Proof.
  apply (service_before_init (P := Demo.on_android) Demo.RNMSAL 0 DemoApp.loaded
           (0, []) (@Build_PublicClientApplication Demo.types false "YOUR_CLIENT_ID_HERE")
           None "u1" "u1");
    reflexivity.
Defined.

(** A request with no scope, which the native module of the example
    resolves with no result, and a silent request it rejects. *)
Lemma service_login_result_witness :
  let pi := interactive_params (msalService.scopes_or_default (Some [])) in
  let ps := silent_params "u1" (msalService.scopes_or_default (Some [])) false in
  let result (r : Settled (option MSALResult)) :=
    match r with Resolved res => res | Rejected _ => None end in
  (let '(_, w1, calls, r) :=
     exec_st Demo.RNMSAL (msalService.login 0 (Some [])) DemoApp.ready (2, []) in
   w1 = fst (native_acquireToken Demo.RNMSAL pi (2, []))
   /\ calls = [AcquireToken pi]
   /\ r = Resolved (result (snd (native_acquireToken Demo.RNMSAL pi (2, [])))))
  /\ (let '(_, w1, calls, r) :=
        exec_st Demo.RNMSAL (msalService.loginSilent 0 "u1" (Some []))
          DemoApp.ready (2, []) in
      w1 = fst (native_acquireTokenSilent Demo.RNMSAL ps (2, []))
      /\ calls = [AcquireTokenSilent ps]
      /\ r = Resolved (result (snd (native_acquireTokenSilent Demo.RNMSAL ps (2, []))))).
Proof.
  exact (service_login_result (P := Demo.on_android) Demo.RNMSAL _ _ _ 0
           DemoApp.ready (2, []) (Some []) "u1" service_after_init).
Defined.

Lemma service_accounts_result_witness :
  snd (exec_st Demo.RNMSAL (msalService.getAccounts 0) DemoApp.ready (2, []))
  = Resolved []
  /\ snd (exec_st Demo.RNMSAL (msalService.getAccount 0 "u1") DemoApp.ready (2, []))
     = Resolved None.
Proof.
  exact (service_accounts_result (P := Demo.on_android) Demo.RNMSAL _ _ _ 0
           DemoApp.ready (2, []) "u1" service_after_init).
Defined.

(** The component mounts while "u1" is signed in on the native side. *)
Lemma initAuth_restores_user_witness :
  let '(st1, w', calls, _) :=
    exec_st Demo.RNMSAL (AuthContext.initAuth 0) DemoApp.mounted (1, ["u1"]) in
  AuthContext.hooks st1
  = {| AuthContext.hook_isInitialized := true;
       AuthContext.hook_isLoading := false;
       AuthContext.hook_user := Some "u1";
       AuthContext.hook_accessToken := None |}
  /\ w' = (2, ["u1"])
  /\ calls = [CreatePublicClientApplication "YOUR_CLIENT_ID_HERE"; GetAccounts].
Proof.
  exact (initAuth_restores_user Demo.RNMSAL 0 DemoApp.mounted (1, ["u1"])
           (rt_heap DemoApp.ready) (2, ["u1"])
           [CreatePublicClientApplication "YOUR_CLIENT_ID_HERE"] 0 (2, ["u1"])
           ["u1"] eq_refl eq_refl).
Defined.

Lemma context_after_init :
  after_init (P := Demo.on_android) Demo.RNMSAL 0
    (snd (msalService.load [])) (1, []) []
    (rt_heap (AuthContext.runtime DemoApp.logged_in)) (2, []).
Proof. split; reflexivity. Defined.

(** "u1" is the user of the component but is not signed in on the native
    side, so the native module answers [false]. *)
Lemma logout_clears_whatever_native_says_witness :
  let '(st1, w', calls, r) :=
    exec_st Demo.RNMSAL (AuthContext.handleLogout (P := Demo.on_android) 0 (Some "u1"))
      DemoApp.logged_in (2, []) in
  r = Resolved true /\ w' = (2, []) /\ calls = [RemoveAccount "u1"]
  /\ AuthContext.hooks st1
     = {| AuthContext.hook_isInitialized := true;
          AuthContext.hook_isLoading := false;
          AuthContext.hook_user := None;
          AuthContext.hook_accessToken := None |}.
Proof.
  refine (logout_clears_whatever_native_says (P := Demo.on_android) Demo.RNMSAL
            _ _ _ 0 DemoApp.logged_in (2, []) "u1" (2, []) false
            context_after_init _ eq_refl).
  discriminate.
Defined.

Lemma login_sets_user_witness :
  let pi := interactive_params (msalService.scopes_or_default None) in
  let '(st1, _, calls, r) :=
    exec_st Demo.RNMSAL (AuthContext.handleLogin 0 None) DemoApp.logged_in (2, []) in
  calls = [AcquireToken pi]
  /\ match snd (native_acquireToken Demo.RNMSAL pi (2, [])) with
     | Resolved (Some res) =>
         r = Resolved (Some res)
         /\ AuthContext.hook_user (AuthContext.hooks st1) = Some (result_account res)
         /\ AuthContext.hook_accessToken (AuthContext.hooks st1)
            = Some (result_accessToken res)
     | _ =>
         r = Resolved None
         /\ AuthContext.hook_user (AuthContext.hooks st1)
            = AuthContext.hook_user (AuthContext.hooks DemoApp.logged_in)
         /\ AuthContext.hook_accessToken (AuthContext.hooks st1)
            = AuthContext.hook_accessToken (AuthContext.hooks DemoApp.logged_in)
     end.
Proof.
  exact (login_sets_user (P := Demo.on_android) Demo.RNMSAL _ _ _ 0
           DemoApp.logged_in (2, []) None context_after_init).
Defined.
